(** * iButton cloner for Arduino Nano: model of [iButton-cloner-nano.ino]

    The sketch is one polling function [loop] over a handful of globals, the
    16 EEPROM slots and the one-wire line.  It is embedded here as pure
    functions over a record of the globals; what the sketch does to the
    outside world (pin writes, delays, OneWire library calls, serial output)
    is collected in a list of events, in program order; what it reads from
    the outside world (pin levels, serial bytes, the outcome of the OneWire
    search) is passed in explicitly. *)

From Stdlib Require Import ZArith List Bool Ascii String Lia.
Import ListNotations.
Open Scope Z_scope.

(** ** Pins (lines 61-66) *)

Definition IBUTTON : Z := 8.
Definition RED : Z := 10.
Definition GREEN : Z := 2.
Definition READ : Z := 3.
Definition WRITE : Z := 4.

(** [const int SLOT[] = {9, 7, 6, 5}], least significant bit first. *)
Definition SLOT (x : Z) : Z := nth (Z.to_nat x) [9; 7; 6; 5] 0.

(** ** Effects *)

Inductive pin_mode : Type := INPUT | OUTPUT | INPUT_PULLUP.

(** [HIGH] is [true], [LOW] is [false].  The [Ow...] events are the calls
    into the OneWire library object [ibutton]; the library itself is not part
    of the sketch. *)
Inductive event : Type :=
| DigitalWrite (pin : Z) (level : bool)
| PinMode (pin : Z) (m : pin_mode)
| Delay (ms : Z)
| DelayMicroseconds (us : Z)
| OwSearch (found : bool)
| OwResetSearch
| OwSkip
| OwReset
| OwWrite (v : Z)
| SerialOut (s : string)
| SerialFlush
| McuReset.

(** A snapshot of the input pins: [digitalRead(p)] is [HIGH] iff [pins p]. *)
Definition pin_levels : Type := Z -> bool.

Definition digitalRead (pins : pin_levels) (p : Z) : Z := Z.b2z (pins p).

(** [for (int x = x0; n more rounds; x++) body] over a threaded state. *)
Fixpoint for_loop {T : Type} (n : nat) (x : Z) (body : Z -> T -> T) (s : T) : T :=
  match n with
  | O => s
  | S n' => for_loop n' (x + 1) body (body x s)
  end.

(** ** EEPROM

    A byte per address.  [EEPROM.write] takes a [uint8_t], so the value is
    reduced modulo 256.  Every address the sketch forms is
    [x + (slot << 5)] with [x < 16] and [slot <= 16], below the 1024 bytes of
    the ATmega328P. *)

Definition eeprom_t : Type := Z -> Z.

Definition EEPROM_read (e : eeprom_t) (a : Z) : Z := e a.

Definition EEPROM_write (e : eeprom_t) (a v : Z) : eeprom_t :=
  fun a' => if a' =? a then v mod 256 else e a'.

(** ** Globals (lines 76-80) *)

Record state : Type := mkState {
  eeprom : eeprom_t;
  addr : list Z;          (* byte addr[8] *)
  code : list Z;          (* byte code[8] *)
  read_pressed : bool;
  write_pressed : bool;
  serial_choice : Z;      (* 0=read, 1=write, 2=clear, 3=dump, -1=none *)
  slot : Z                (* byte slot *)
}.

(** The globals as the C runtime initialises them; the EEPROM survives. *)
Definition power_on (e : eeprom_t) : state :=
  mkState e (repeat 0 8) (repeat 0 8) false false (-1) 0.

Definition set_eeprom (st : state) (e : eeprom_t) : state :=
  mkState e (addr st) (code st) (read_pressed st) (write_pressed st)
          (serial_choice st) (slot st).

Definition set_addr (st : state) (a : list Z) : state :=
  mkState (eeprom st) a (code st) (read_pressed st) (write_pressed st)
          (serial_choice st) (slot st).

Definition set_code (st : state) (c : list Z) : state :=
  mkState (eeprom st) (addr st) c (read_pressed st) (write_pressed st)
          (serial_choice st) (slot st).

Definition set_pressed (st : state) (r w : bool) : state :=
  mkState (eeprom st) (addr st) (code st) r w (serial_choice st) (slot st).

Definition set_serial_choice (st : state) (c : Z) : state :=
  mkState (eeprom st) (addr st) (code st) (read_pressed st) (write_pressed st)
          c (slot st).

Definition set_slot (st : state) (s : Z) : state :=
  mkState (eeprom st) (addr st) (code st) (read_pressed st) (write_pressed st)
          (serial_choice st) s.

(** ** [writeByte] (lines 329-345)

    Eight bit slots, least significant bit first.  [data] is a byte, so
    [data >> 1] needs no truncation. *)
Fixpoint writeByte_loop (n : nat) (data : Z) : list event :=
  match n with
  | O => []
  | S n' =>
      (if negb (Z.land data 1 =? 0)
       then [DigitalWrite IBUTTON false; PinMode IBUTTON OUTPUT;
             DelayMicroseconds 60;
             PinMode IBUTTON INPUT; DigitalWrite IBUTTON true;
             Delay 10]
       else [DigitalWrite IBUTTON false; PinMode IBUTTON OUTPUT;
             PinMode IBUTTON INPUT; DigitalWrite IBUTTON true;
             Delay 10])
      ++ writeByte_loop n' (Z.shiftr data 1)
  end.

Definition writeByte (data : Z) : list event := writeByte_loop 8 data.

(** ** [blinkPin] (lines 347-354)

    The three arguments are [int].  [period/2] is C integer division;
    [digitalWrite] takes the pin as a [uint8_t] and [delay] takes an
    [unsigned long] of 32 bits, so the pin is reduced modulo 256 and a
    negative half period wraps around. *)
Definition blinkPin (LED cycles period : Z) : list event :=
  for_loop (Z.to_nat cycles) 0
    (fun _ tr => tr ++ [DigitalWrite (LED mod 256) true;
                        Delay (Z.quot period 2 mod 2 ^ 32);
                        DigitalWrite (LED mod 256) false;
                        Delay (Z.quot period 2 mod 2 ^ 32)])
    [].

(** ** [update_slot] (lines 488-496)

    [slot] is a byte: the [int] result of the OR is truncated on assignment.
    The second loop overwrites all of [code[0..7]]. *)
Definition read_selector (pins : pin_levels) : Z :=
  for_loop 4 0
    (fun x s => (Z.lor s (Z.shiftl (digitalRead pins (SLOT x)) x)) mod 256)
    0.

Definition slot_bytes (e : eeprom_t) (s : Z) (lo : Z) (n : nat) : list Z :=
  map (fun x => EEPROM_read e (Z.of_nat x + lo + Z.shiftl s 5)) (seq 0 n).

Definition update_slot (pins : pin_levels) (st : state) : state :=
  let st1 := set_slot st (read_selector pins) in
  set_code st1 (slot_bytes (eeprom st1) (slot st1) 0 8).

(** ** [slot_is_full] (lines 498-509) *)
Definition slot_is_full (e : eeprom_t) (s : Z) : bool :=
  let result :=
    for_loop 8 0 (fun x r => Z.lor r (EEPROM_read e (x + Z.shiftl s 5))) 0 in
  if result =? 0 then false else true.

(** The zeroing loop of the clear command (lines 223-225) and of the button
    chord (lines 265-267). *)
Definition clear_slot (e : eeprom_t) (s : Z) : eeprom_t :=
  for_loop 16 0 (fun x e' => EEPROM_write e' (x + Z.shiftl s 5) 0) e.

(** The copy loop of the capture (lines 280-283), EEPROM side. *)
Definition store_addr (e : eeprom_t) (s : Z) (a : list Z) : eeprom_t :=
  for_loop 8 0
    (fun i e' => EEPROM_write e' (i + Z.shiftl s 5) (nth (Z.to_nat i) a 0)) e.

(** ** Serial output

    One [SerialOut] per [Serial.print] call; [Serial.println] appends CR LF.
    Characters are handled as their codes. *)

Definition chr (a : ascii) : Z := Z.of_N (N_of_ascii a).
Definition char_of (c : Z) : ascii := ascii_of_N (Z.to_N (c mod 256)).

Definition LF : string := String (char_of 10) EmptyString.
Definition CRLF : string := String (char_of 13) LF.

Definition print (s : string) : event := SerialOut s.
Definition println (s : string) : event := SerialOut (s ++ CRLF).

(** [Serial.print(n, HEX)] for an unsigned [n], as the Arduino core's
    [Print::printNumber] builds it: digits from the least significant one,
    at least one digit, capitals, no prefix.  The core is not part of the
    sketch; eight rounds cover an [unsigned long]. *)
Definition hex_digit (d : Z) : ascii :=
  char_of (if d <? 10 then d + chr "0" else d + chr "A" - 10).

Fixpoint printNumber_hex (fuel : nat) (n : Z) (acc : string) : string :=
  match fuel with
  | O => acc
  | S fuel' =>
      let acc' := String (hex_digit (n mod 16)) acc in
      if n / 16 =? 0 then acc' else printNumber_hex fuel' (n / 16) acc'
  end.

Definition print_HEX (n : Z) : event := SerialOut (printNumber_hex 8 n "").

(** [printWelcome] (lines 356-362) *)
Definition printWelcome : list event :=
  [println "iButton Cloner Serial Console";
   println "Enter 'R' to read current memory slot.";
   println "Enter 'W' to write to current memory slot.";
   println "Enter 'C' to clear the current memory slot.";
   println ("Enter 'D' to dump all memory slots." ++ LF)].

(** [print_mem] (lines 364-377); [x] is a byte counter from [lower] up to
    [upper]. *)
Definition print_mem (e : eeprom_t) (s : Z) (lower upper : Z) : list event :=
  if slot_is_full e s then
    for_loop (Z.to_nat (upper - lower)) lower
      (fun x tr =>
         let curr_val := EEPROM_read e (x + Z.shiftl s 5) in
         tr ++ [print "0x"]
            ++ (if curr_val <? 16 then [print "0"] else [])
            ++ [print_HEX curr_val]
            ++ (if x <? upper - 1 then [print ", "] else []))
      []
  else [print "<EMPTY SLOT>"].

(** [print_mem_name] (lines 379-392); the inner [return] ends the loop at the
    first NUL. *)
Fixpoint print_mem_name_loop (n : nat) (x : Z) (e : eeprom_t) (s : Z) : list event :=
  match n with
  | O => []
  | S n' =>
      let value := EEPROM_read e (x + 8 + Z.shiftl s 5) in
      if value =? 0 then []
      else print (String (char_of value) EmptyString)
           :: print_mem_name_loop n' (x + 1) e s
  end.

Definition print_mem_name (e : eeprom_t) (s : Z) : list event :=
  if EEPROM_read e (0 + 8 + Z.shiftl s 5) =? 0 then [print "<UNNAMED>"]
  else print_mem_name_loop 8 0 e s.

(** ** Hexadecimal input (lines 394-474)

    Characters are their codes.  The parameter of [hex_digit_val_dec] is a
    [char] and the elements of a [String] are [char]s: these definitions are
    about character codes, which is what [read_hexstr] hands them. *)

Definition toupper (c : Z) : Z :=
  if (chr "a" <=? c) && (c <=? chr "z") then c - 32 else c.

Definition tolower (c : Z) : Z :=
  if (chr "A" <=? c) && (c <=? chr "Z") then c + 32 else c.

Definition hex_digit_val_dec (ch : Z) : Z :=
  if ch =? chr "0" then 0 else
  if ch =? chr "1" then 1 else
  if ch =? chr "2" then 2 else
  if ch =? chr "3" then 3 else
  if ch =? chr "4" then 4 else
  if ch =? chr "5" then 5 else
  if ch =? chr "6" then 6 else
  if ch =? chr "7" then 7 else
  if ch =? chr "8" then 8 else
  if ch =? chr "9" then 9 else
  if ch =? chr "A" then 10 else
  if ch =? chr "B" then 11 else
  if ch =? chr "C" then 12 else
  if ch =? chr "D" then 13 else
  if ch =? chr "E" then 14 else
  if ch =? chr "F" then 15 else
  -1.

(** A [String] is the list of its character codes. *)
Definition hexstr_to_int (hex : list Z) : Z :=
  match hex with
  | [h0; h1] =>
      let temp := hex_digit_val_dec (toupper h0) in
      if temp =? -1 then -1 else
      let ret := 0 + temp * 16 in
      let temp := hex_digit_val_dec (toupper h1) in
      if temp =? -1 then -1 else
      ret + temp
  | _ => -1
  end.

(** ** The checksum

    Modelled from the spec: [OneWire::crc8] belongs to the OneWire library,
    which is not in the sketch.  The spec (4.3) gives an 8-bit CRC with
    polynomial 0x31, reflected (0x8C), in the one-wire CRC-8/MAXIM
    convention: initial value 0, bytes taken least significant bit first.
    [crc] and [inbyte] are bytes. *)
Fixpoint crc8_bits (n : nat) (crc inbyte : Z) : Z :=
  match n with
  | O => crc
  | S n' =>
      let mix := Z.land (Z.lxor crc inbyte) 1 in
      let crc1 := Z.shiftr crc 1 in
      let crc2 := if negb (mix =? 0) then (Z.lxor crc1 0x8C) mod 256 else crc1 in
      crc8_bits n' crc2 (Z.shiftr inbyte 1)
  end.

Definition crc8 (bytes : list Z) : Z :=
  fold_left (fun crc inbyte => crc8_bits 8 (crc mod 256) (inbyte mod 256)) bytes 0.

(** ** What one run of [loop] reads from the outside world

    - [serial_rx]: the bytes in the receive buffer when line 104 starts
      reading; empty means [Serial.available()] was 0 at line 101;
    - [serial_code]: the bytes waiting when line 156 is reached, in answer to
      the code prompt (line 154 waits for the first of them); empty when none
      ever comes;
    - [serial_name]: the bytes that arrive in answer to the name prompt, empty
      when none ever comes, and [name_polls] the number of 1 ms waits of
      line 202 before the first of them;
    - [buttons]: the pin levels sampled at lines 253-254;
    - [chord x]: the pin levels sampled after the red pulse number [x] of the
      two-button hold (lines 259-260);
    - [selector]: the pin levels sampled by [update_slot];
    - [search]: the outcome of [ibutton.search(addr)], with the 8 ROM bytes
      it leaves in [addr] when it returns true;
    - [held]: how many times the release wait (lines 286, 316, 320) still
      finds the button down. *)
Record inputs : Type := mkInputs {
  serial_rx : list Z;
  serial_code : list Z;
  serial_name : list Z;
  name_polls : nat;
  buttons : pin_levels;
  chord : Z -> pin_levels;
  selector : pin_levels;
  search : option (list Z);
  held : nat
}.

(** ** The serial branch of [loop] (lines 101-251) *)

(** Lines 104-122: only while no command is pending is a byte looked at. *)
Fixpoint read_command (buf : list Z) (choice : Z) : Z :=
  match buf with
  | [] => choice
  | currChar :: rest =>
      read_command rest
        (if choice =? -1 then
           let c := toupper currChar in
           if c =? chr "R" then 0
           else if c =? chr "W" then 1
           else if c =? chr "C" then 2
           else if c =? chr "D" then 3
           else choice
         else choice)
  end.

(** [Serial.read()]: the next byte, or -1 on an empty buffer. *)
Definition Serial_read (buf : list Z) : Z * list Z :=
  match buf with
  | [] => (-1, [])
  | c :: rest => (c, rest)
  end.

(** Lines 157-179.  [bad_form] resets the controller and does not return, so
    the first complaint ends the reading.  A [String] built from two
    characters has them both unless one is NUL, and NUL is no hex digit, so
    [hexstr_to_int] answers -1 on it either way. *)
Inductive form : Type :=
| Bad (msg : string)
| Good (hexstr : list (list Z)) (rest : list Z).

Fixpoint read_hexstr (n : nat) (x : Z) (buf : list Z) (hexstr : list (list Z)) : form :=
  match n with
  | O => Good hexstr buf
  | S n' =>
      let (c0, b0) := Serial_read buf in
      if negb (c0 =? chr "0")
      then Bad "[ERROR] No leading 0 found (before leading x)." else
      let (c1, b1) := Serial_read b0 in
      if negb (tolower c1 =? chr "x")
      then Bad "[ERROR] No leading x found (before 2 hex digits)." else
      let (h0, b2) := Serial_read b1 in
      let (h1, b3) := Serial_read b2 in
      let hexstr' := hexstr ++ [[h0 mod 256; h1 mod 256]] in
      if x <? 5 then
        let (c2, b4) := Serial_read b3 in
        if negb (c2 =? chr ",")
        then Bad "[ERROR] No comma found between values (after 2 hex digits)." else
        let (c3, b5) := Serial_read b4 in
        if negb (c3 =? chr " ")
        then Bad "[ERROR] No space found between values (after comma)." else
        read_hexstr n' (x + 1) b5 hexstr'
      else read_hexstr n' (x + 1) b3 hexstr'
  end.

(** Lines 180-187: [None] when some field is not two hex digits. *)
Fixpoint read_result (hexstr : list (list Z)) : option (list Z) :=
  match hexstr with
  | [] => Some []
  | h :: t =>
      let r := hexstr_to_int h in
      if r =? -1 then None
      else match read_result t with
           | Some l => Some (r :: l)
           | None => None
           end
  end.

(** Lines 189-196: family code, the six bytes, the checksum of those seven. *)
Definition save_code (e : eeprom_t) (s : Z) (result : list Z) : eeprom_t :=
  let e0 := EEPROM_write e (0 + Z.shiftl s 5) 0x0C in
  let start0 := [0x0C] in
  let '(e1, start) :=
    for_loop 6 0
      (fun x '(e', start') =>
         let b := (nth (Z.to_nat x) result 0) mod 256 in
         (EEPROM_write e' (x + Z.shiftl s 5 + 1) b, start' ++ [b]))
      (e0, start0) in
  EEPROM_write e1 (7 + Z.shiftl s 5) (crc8 start).

(** Lines 204-211: eight label bytes, NUL once the buffer runs dry. *)
Definition save_name (e : eeprom_t) (s : Z) (buf : list Z) : eeprom_t :=
  fst (for_loop 8 0
         (fun x '(e', b) =>
            match b with
            | [] => (EEPROM_write e' (x + 8 + Z.shiftl s 5) 0, [])
            | c :: rest => (EEPROM_write e' (x + 8 + Z.shiftl s 5) c, rest)
            end)
         (e, buf)).

(** How a command ends: it falls out of the [switch], or [bad_form]
    (lines 482-486) has restarted the controller, or it is still waiting for
    serial input that does not come (lines 154 and 202) and [loop] does not
    return. *)
Inductive ending : Type := Completed | Restarted | Waiting.

(** [bad_form] after its message: the globals start over. *)
Definition bad_form (st : state) (tr : list event) (msg : string)
  : ending * state * list event :=
  (Restarted, power_on (eeprom st),
   tr ++ [println (msg ++ LF); SerialFlush; McuReset]).

(** One line of the dump (lines 236-241). *)
Definition dump_entry (e : eeprom_t) (s : Z) : list event :=
  [print_HEX s; print " : "] ++ print_mem_name e s
  ++ [print " : "] ++ print_mem e s 1 7 ++ [print LF].

Definition serial_read_slot (inp : inputs) (st : state) : state * list event :=
  let st1 := update_slot (selector inp) st in
  let tr :=
    if slot_is_full (eeprom st1) (slot st1) then
      [print "Reading code from device slot "; print_HEX (slot st1);
       println "..."; print "[SUCCESS] "; print_HEX (slot st1); print " : "]
      ++ print_mem_name (eeprom st1) (slot st1)
      ++ [print " : "]
      ++ print_mem (eeprom st1) (slot st1) 1 7
      ++ [println LF]
    else
      [print "[ERROR] No code stored in slot "; print_HEX (slot st1);
       println (" yet." ++ LF)] in
  (set_serial_choice st1 (-1), tr).

(** Lines 149-216.  Line 154 waits for the first byte of the code and line
    202 for the first byte of the name: when none comes the command ends
    [Waiting], with the state and the output it has reached.  What the six
    fields leave in the buffer is read as the start of the name. *)
Definition serial_write_slot (inp : inputs) (st : state)
  : ending * state * list event :=
  let st1 := update_slot (selector inp) st in
  let tr0 :=
    [print "Waiting for code to program slot "; print_HEX (slot st1);
     println " with...";
     println "Format: 0x01, 0x02, 0x03, 0x04, 0x05, 0x06"] in
  let tr1 := tr0 ++ [Delay 100] in
  match serial_code inp with
  | [] => (Waiting, st1, tr0)
  | _ :: _ =>
      match read_hexstr 6 0 (serial_code inp) [] with
      | Bad msg => bad_form st1 tr1 msg
      | Good hexstr rest =>
          match read_result hexstr with
          | None => bad_form st1 tr1 "[ERROR] Invalid hex character."
          | Some result =>
              let e2 := save_code (eeprom st1) (slot st1) result in
              let tr2 :=
                [print "[SUCCESS] Code saved to slot "; print_HEX (slot st1);
                 print ("!" ++ LF);
                 println "Waiting for name (up to 8 characters)..."] in
              match rest ++ serial_name inp with
              | [] => (Waiting, set_eeprom st1 e2, tr1 ++ tr2)
              | _ :: _ =>
                  let tr3 :=
                    repeat (Delay 1)
                      (match rest with [] => name_polls inp | _ :: _ => O end)
                    ++ [Delay 100] in
                  let e3 := save_name e2 (slot st1) (rest ++ serial_name inp) in
                  (Completed, set_serial_choice (set_eeprom st1 e3) (-1),
                   tr1 ++ (tr2 ++ tr3)
                   ++ [println ("[SUCCESS] Name saved!" ++ LF)])
              end
          end
      end
  end.

Definition serial_clear_slot (inp : inputs) (st : state) : state * list event :=
  let st1 := update_slot (selector inp) st in
  let st2 := set_eeprom st1 (clear_slot (eeprom st1) (slot st1)) in
  (set_serial_choice st2 (-1),
   [print "Clearing slot "; print_HEX (slot st1); println "...";
    print "[SUCCESS] Slot "; print_HEX (slot st1);
    println (" cleared!" ++ LF)]).

(** Lines 232-245.  The loop counter is the global [slot], left at 0x10;
    [serial_choice] is not assigned in this case. *)
Definition serial_dump (st : state) : state * list event :=
  (set_slot st 16,
   [println "Dumping all slots..."]
   ++ for_loop 16 0 (fun s tr => tr ++ dump_entry (eeprom st) s) []
   ++ [println ("[SUCCESS] Done dumping all slots!" ++ LF)]).

Definition completed (r : state * list event) : ending * state * list event :=
  (Completed, fst r, snd r).

Definition loop_serial (inp : inputs) (st : state) : state * list event :=
  let st0 := set_serial_choice st (read_command (serial_rx inp) (serial_choice st)) in
  let '(e, st1, tr) :=
    if serial_choice st0 =? 0 then completed (serial_read_slot inp st0)
    else if serial_choice st0 =? 1 then serial_write_slot inp st0
    else if serial_choice st0 =? 2 then completed (serial_clear_slot inp st0)
    else if serial_choice st0 =? 3 then completed (serial_dump st0)
    else completed (set_serial_choice st0 (-1), []) in
  match e with
  | Completed => (st1, Delay 100 :: tr ++ printWelcome)
  | Restarted => (st1, Delay 100 :: tr)
  | Waiting => (st1, Delay 100 :: tr)
  end.

(** ** The button branch of [loop] (lines 252-326) *)

(** Lines 257-264: three red pulses of one second, the buttons sampled after
    each; [false] when a released button makes [loop] return. *)
Fixpoint chord_hold (n : nat) (x : Z) (inp : inputs) (st : state) (tr : list event)
  : bool * state * list event :=
  match n with
  | O => (true, st, tr)
  | S n' =>
      let tr' := tr ++ blinkPin RED 1 1000 in
      let st' := set_pressed st (digitalRead (chord inp x) READ =? 0)
                                (digitalRead (chord inp x) WRITE =? 0) in
      if negb (read_pressed st') || negb (write_pressed st') then (false, st', tr')
      else chord_hold n' (x + 1) inp st' tr'
  end.

(** Lines 272-278 and 291-297: no device answered. *)
Definition search_failed : list event :=
  [OwSearch false; DigitalWrite RED true; OwResetSearch; Delay 1;
   DigitalWrite RED false].

(** Lines 271-286. *)
Definition capture (inp : inputs) (st : state) : state * list event :=
  let st1 := update_slot (selector inp) st in
  match search inp with
  | None => (st1, search_failed)
  | Some rom =>
      let st2 := set_addr st1 rom in
      let e := store_addr (eeprom st2) (slot st2) (addr st2) in
      let c := map (fun i => nth i (addr st2) 0) (seq 0 8) in
      (set_code (set_eeprom st2 e) c,
       [OwSearch true] ++ blinkPin GREEN 5 250 ++ repeat (Delay 1) (held inp))
  end.

(** Lines 289-321. *)
Definition program (inp : inputs) (st : state) : state * list event :=
  let st1 := update_slot (selector inp) st in
  if slot_is_full (eeprom st1) (slot st1) then
    match search inp with
    | None => (st1, search_failed)
    | Some rom =>
        let st2 := set_addr st1 rom in
        (st2,
         [OwSearch true;
          OwSkip; OwReset; OwWrite 0x33;
          OwSkip; OwReset; OwWrite 0xD5]
         ++ for_loop 8 0
              (fun x tr =>
                 tr ++ [DigitalWrite RED true; Delay 5]
                    ++ writeByte (nth (Z.to_nat x) (code st2) 0)
                    ++ [DigitalWrite RED false; Delay 15])
              []
         ++ [OwReset]
         ++ blinkPin GREEN 5 250
         ++ repeat (Delay 1) (held inp))
    end
  else (st1, blinkPin RED 5 250 ++ repeat (Delay 1) (held inp)).

(** Lines 270-325: [if (read_pressed) ... else if (write_pressed) ... else]. *)
Definition dispatch (inp : inputs) (st : state) : state * list event :=
  if read_pressed st then capture inp st
  else if write_pressed st then program inp st
  else (st, [Delay 1]).

Definition loop_buttons (inp : inputs) (st : state) : state * list event :=
  let st0 := set_pressed st (digitalRead (buttons inp) READ =? 0)
                            (digitalRead (buttons inp) WRITE =? 0) in
  if read_pressed st0 && write_pressed st0 then
    let '(kept, st1, tr1) := chord_hold 3 0 inp st0 [] in
    if kept then
      let st2 := set_eeprom st1 (clear_slot (eeprom st1) (slot st1)) in
      let '(st3, tr3) := dispatch inp st2 in
      (st3, tr1 ++ blinkPin GREEN 3 250 ++ tr3)
    else (st1, tr1)
  else dispatch inp st0.

(** ** [loop] (lines 100-327)

    One run: the globals and the output when [loop] returns or the controller
    restarts; for a write command that is left [Waiting], the globals and the
    output at the wait. *)
Definition loop (inp : inputs) (st : state) : state * list event :=
  match serial_rx inp with
  | _ :: _ => loop_serial inp st
  | [] => loop_buttons inp st
  end.

(** [setup] (lines 82-98), run once after power-on and after every restart;
    [Serial.begin] opens the port and sends nothing. *)
Definition setup : list event :=
  [PinMode RED OUTPUT; PinMode GREEN OUTPUT;
   PinMode READ INPUT_PULLUP; PinMode WRITE INPUT_PULLUP]
  ++ for_loop 4 0 (fun x tr => tr ++ [PinMode (SLOT x) INPUT_PULLUP]) []
  ++ [DigitalWrite RED false; DigitalWrite GREEN false]
  ++ printWelcome.

(** * Vocabulary of the statements *)

(** The counter values [x0, x0 + 1, ...] of [n] rounds of a loop. *)
Definition range (x0 : Z) (n : nat) : list Z :=
  map (fun k => x0 + Z.of_nat k) (seq 0 n).

(** The two bit slots [writeByte] can emit: the line driven low and held for
    60 microseconds, or driven low and released at once; each is followed by
    10 ms of recovery. *)
Definition hold_low_60us : list event :=
  [DigitalWrite IBUTTON false; PinMode IBUTTON OUTPUT;
   DelayMicroseconds 60;
   PinMode IBUTTON INPUT; DigitalWrite IBUTTON true;
   Delay 10].

Definition brief_low_pulse : list event :=
  [DigitalWrite IBUTTON false; PinMode IBUTTON OUTPUT;
   PinMode IBUTTON INPUT; DigitalWrite IBUTTON true;
   Delay 10].

(** The bit encoding in the words of the specification: a 0 bit holds the
    line low for 60 microseconds, a 1 bit is the brief pulse. *)
Definition spec_writeByte (data : Z) : list event :=
  flat_map (fun i => if Z.testbit data i then brief_low_pulse else hold_low_60us)
           (range 0 8).

(** The selector switches set to slot [n]. *)
Definition selector_at (n : Z) : pin_levels :=
  fun p => if p =? 9 then Z.testbit n 0
           else if p =? 7 then Z.testbit n 1
           else if p =? 6 then Z.testbit n 2
           else if p =? 5 then Z.testbit n 3
           else true.

(** What acts on the one-wire line: the OneWire calls and the pin operations
    on [IBUTTON]. *)
Definition on_bus (ev : event) : bool :=
  match ev with
  | OwSearch _ | OwResetSearch | OwSkip | OwReset | OwWrite _ => true
  | DigitalWrite p _ | PinMode p _ => p =? IBUTTON
  | _ => false
  end.

Definition bus_trace (tr : list event) : list event := filter on_bus tr.

(** The programming sequence in the words of the specification: reset,
    skip-ROM, reset, write-memory opcode, reset, copy/load opcode, the byte
    transmissions, final reset; [bytes] stands for whatever the eight
    transmissions put on the line. *)
Definition spec_program_sequence (w c : Z) (bytes : list event) : list event :=
  [OwReset; OwSkip; OwReset; OwWrite w; OwReset; OwWrite c] ++ bytes ++ [OwReset].

(** The buttons ground their pins: a pressed button reads LOW. *)
Definition write_button_only (inp : inputs) : Prop :=
  serial_rx inp = [] /\ buttons inp READ = true /\ buttons inp WRITE = false.

Definition read_button_only (inp : inputs) : Prop :=
  serial_rx inp = [] /\ buttons inp READ = false /\ buttons inp WRITE = true.

Definition is_byte (b : Z) : Prop := 0 <= b < 256.

(** Inputs of a run in which only one button is down, for [held] polls. *)
Definition press (button : Z) (sel : pin_levels) (found : option (list Z))
                 (n : nat) : inputs :=
  mkInputs [] [] [] O (fun p => negb (p =? button)) (fun _ _ => true)
           sel found n.

(** An EEPROM that is blank but for the identifier [id] in slot [s]. *)
Definition eeprom_with (s : Z) (id : list Z) : eeprom_t :=
  fun a => if (Z.shiftl s 5 <=? a) && (a <? Z.shiftl s 5 + 8)
           then nth (Z.to_nat (a - Z.shiftl s 5)) id 0 else 0.

(** The identifier of the sequence scenario, [0C 11 22 33 44 55 66 <crc>]. *)
Definition id5 : list Z :=
  [0x0C; 0x11; 0x22; 0x33; 0x44; 0x55; 0x66]
  ++ [crc8 [0x0C; 0x11; 0x22; 0x33; 0x44; 0x55; 0x66]].

(** Inputs of a run that finds the bytes [rx] in the serial buffer, no button
    down. *)
Definition console (rx : list Z) (sel : pin_levels) : inputs :=
  mkInputs rx [] [] O (fun _ => true) (fun _ _ => true) sel None O.

(** Inputs of a run in which both buttons are down and stay down through the
    three red pulses. *)
Definition both_down : pin_levels :=
  fun p => negb ((p =? READ) || (p =? WRITE)).

Definition hold_both (sel : pin_levels) (found : option (list Z)) : inputs :=
  mkInputs [] [] [] O both_down (fun _ => both_down) sel found O.

(** The characters of a line typed at the console, as the bytes received. *)
Definition typed (s : string) : list Z := map chr (list_ascii_of_string s).

(** Inputs of a console write: the command bytes, the line with the code,
    the line with the name. *)
Definition console_write (rx code_line name_line : list Z) (sel : pin_levels)
  : inputs :=
  mkInputs rx code_line name_line O (fun _ => true) (fun _ _ => true) sel None O.

(** The text a run sends to the console. *)
Fixpoint serial_text (tr : list event) : string :=
  match tr with
  | [] => EmptyString
  | SerialOut s :: tr' => s ++ serial_text tr'
  | _ :: tr' => serial_text tr'
  end.

Definition text_of (lines : list string) : string :=
  fold_right String.append EmptyString lines.

(** A byte as the dump shows it: [0x] and two capital hex digits. *)
Definition byte_text (b : Z) : string :=
  "0x" ++ (if b <? 16 then "0" else "") ++ printNumber_hex 8 b "".

Fixpoint join_bytes (l : list Z) : string :=
  match l with
  | [] => ""
  | b :: r =>
      match r with
      | [] => byte_text b
      | _ :: _ => byte_text b ++ ", " ++ join_bytes r
      end
  end.

(** The characters of a label up to its first NUL. *)
Fixpoint name_chars (l : list Z) : string :=
  match l with
  | [] => ""
  | c :: r => if c =? 0 then "" else String (char_of c) (name_chars r)
  end.

Definition label_text (e : eeprom_t) (s : Z) : string :=
  if hd 0 (slot_bytes e s 8 8) =? 0 then "<UNNAMED>"
  else name_chars (slot_bytes e s 8 8).

(** Bytes 1 to 6 of the identifier, or the empty mark. *)
Definition payload_text (e : eeprom_t) (s : Z) : string :=
  if slot_is_full e s then join_bytes (slot_bytes e s 1 6) else "<EMPTY SLOT>".

Definition entry_text (e : eeprom_t) (s : Z) : string :=
  printNumber_hex 8 s "" ++ " : " ++ label_text e s ++ " : "
  ++ payload_text e s ++ LF.

(** Two identifiers with the same six middle bytes. *)
Definition id_0C : list Z := id5.
Definition id_01 : list Z := [0x01; 0x11; 0x22; 0x33; 0x44; 0x55; 0x66; 0xFF].

(** Decide the comparisons of addresses in the goal. *)
Ltac decide_addresses :=
  repeat match goal with
         | |- context [?u =? ?v] => destruct (Z.eqb_spec u v); try lia
         | |- context [?u <=? ?v] => destruct (Z.leb_spec u v); try lia
         | |- context [?u <? ?v] => destruct (Z.ltb_spec u v); try lia
         end;
  cbn [andb].

(** Settle one read of the record after [save_code]. *)
Ltac read_saved_byte :=
  cbn [Z.of_nat Pos.of_succ_nat Pos.succ]; decide_addresses; cbn [app nth];
  try (rewrite Z.mod_small by lia; reflexivity);
  match goal with
  | |- context [Z.to_nat (?j + 0 + ?b - (?b + 1))] =>
      replace (j + 0 + b - (b + 1)) with (j - 1) by lia;
      let n := eval vm_compute in (Z.to_nat (j - 1)) in
      change (Z.to_nat (j - 1)) with n; cbn [nth]
  end;
  rewrite Zmod_mod, Z.mod_small by lia; reflexivity.

(** The characters [hex_digit_val_dec] knows, and those [hexstr_to_int]
    accepts after [toupper]. *)
Definition is_hex_upper (c : Z) : bool :=
  ((chr "0" <=? c) && (c <=? chr "9")) || ((chr "A" <=? c) && (c <=? chr "F")).

Definition is_hex_char (c : Z) : bool :=
  is_hex_upper c || ((chr "a" <=? c) && (c <=? chr "f")).

(** The command a byte stands for at line 109-120, -1 for none. *)
Definition command_of (c : Z) : Z :=
  if (c =? chr "R") || (c =? chr "r") then 0
  else if (c =? chr "W") || (c =? chr "w") then 1
  else if (c =? chr "C") || (c =? chr "c") then 2
  else if (c =? chr "D") || (c =? chr "d") then 3
  else -1.

Definition is_command (c : Z) : bool := negb (command_of c =? -1).

(** The milliseconds a trace spends in [delay]. *)
Fixpoint delay_ms (tr : list event) : Z :=
  match tr with
  | [] => 0
  | Delay ms :: tr' => ms + delay_ms tr'
  | _ :: tr' => delay_ms tr'
  end.

Ltac eval_chr :=
  repeat match goal with
         | |- context [chr ?a] =>
             let v := eval vm_compute in (chr a) in change (chr a) with v
         end.

(** A code line the write command refuses: a field out of form, or a field
    that is not two hex digits. *)
Definition malformed_code (buf : list Z) : Prop :=
  match read_hexstr 6 0 buf [] with
  | Bad _ => True
  | Good hexstr _ => read_result hexstr = None
  end.

(** Runs of [loop] that only look: a press of the write button alone, a
    console command other than write and clear, a poll with no button
    down. *)
Definition looks_only (inp : inputs) (st : state) : Prop :=
  write_button_only inp
  \/ (serial_rx inp <> []
      /\ read_command (serial_rx inp) (serial_choice st) <> 1
      /\ read_command (serial_rx inp) (serial_choice st) <> 2)
  \/ (serial_rx inp = [] /\ buttons inp READ = true /\ buttons inp WRITE = true).

(** The answer of the read command for slot [s] of [e]. *)
Definition read_answer (e : eeprom_t) (s : Z) : string :=
  if slot_is_full e s then
    "Reading code from device slot " ++ printNumber_hex 8 s "" ++ "..." ++ CRLF
    ++ "[SUCCESS] " ++ printNumber_hex 8 s "" ++ " : " ++ label_text e s ++ " : "
    ++ join_bytes (slot_bytes e s 1 6) ++ LF ++ CRLF
  else
    "[ERROR] No code stored in slot " ++ printNumber_hex 8 s "" ++ " yet."
    ++ LF ++ CRLF.

(** The label as the read command shows it, from the eight bytes stored. *)
Definition shown_name (name : list Z) : string :=
  if hd 0 name =? 0 then "<UNNAMED>" else name_chars name.

(** The trace of a programming run that sends the eight bytes [id]. *)
Definition programming_trace (id : list Z) (n : nat) : list event :=
  [OwSearch true; OwSkip; OwReset; OwWrite 0x33; OwSkip; OwReset; OwWrite 0xD5]
  ++ flat_map (fun b => [DigitalWrite RED true; Delay 5] ++ writeByte b
                        ++ [DigitalWrite RED false; Delay 15]) id
  ++ [OwReset]
  ++ blinkPin GREEN 5 250
  ++ repeat (Delay 1) n.

(** Both buttons down when [loop] samples them, nothing on the serial port. *)
Definition both_buttons (inp : inputs) : Prop :=
  serial_rx inp = [] /\ buttons inp READ = false /\ buttons inp WRITE = false.

(** A button is found released at one of the three samples of the chord. *)
Definition released_early (inp : inputs) : Prop :=
  exists x, 0 <= x < 3 /\ (chord inp x READ = true \/ chord inp x WRITE = true).

(** Both buttons are found down at the three samples of the chord. *)
Definition held_through (inp : inputs) : Prop :=
  forall x, 0 <= x < 3 -> chord inp x READ = false /\ chord inp x WRITE = false.

(** The values of an [int] of the ATmega328P, 16 bits. *)
Definition is_int (x : Z) : Prop := -32768 <= x <= 32767.

(** Close the case of a two-button hold that stops after [n] pulses. *)
Ltac chord_stops_after n :=
  split; [reflexivity|]; split; [reflexivity|];
  split; [vm_compute; split; discriminate|];
  exists n; split; [lia|]; split; [reflexivity|];
  let k := eval vm_compute in (Z.of_nat n - 1) in
  change (Z.of_nat n - 1) with k;
  split;
  [ first [left; assumption | right; assumption]
  | intros y Hy;
    first [ exfalso; lia
          | destruct (Z.eq_dec y 0) as [->|?]; [split; assumption|];
            first [ exfalso; lia
                  | assert (y = 1) by lia; subst y; split; assumption ] ] ].

(** * Properties *)

(** ** Loops *)

Lemma range_S (x0 : Z) (n : nat) : range x0 (S n) = x0 :: range (x0 + 1) n.
Proof.
  unfold range. simpl. f_equal; [lia|].
  rewrite <- seq_shift, map_map. apply map_ext. intros k. lia.
Qed.

(** A loop that only appends is the concatenation of what its rounds append. *)
Lemma for_loop_append {A : Type} (f : Z -> list A) (n : nat) :
  forall x0 acc,
    for_loop n x0 (fun x tr => tr ++ f x) acc = acc ++ flat_map f (range x0 n).
Proof.
  induction n as [|n IH]; intros x0 acc.
  - simpl. now rewrite app_nil_r.
  - rewrite range_S. simpl. rewrite IH. now rewrite <- app_assoc.
Qed.

(** ** EEPROM cells *)

Lemma EEPROM_read_write (e : eeprom_t) (a v a' : Z) :
  EEPROM_read (EEPROM_write e a v) a' =
  if a' =? a then v mod 256 else EEPROM_read e a'.
Proof. reflexivity. Qed.

(** A loop that writes [f x] at [addr x = x + base] for [x0 <= x < x0 + n]. *)
Lemma for_loop_write_at (addr f : Z -> Z) (base : Z) (n : nat) :
  (forall x, addr x = x + base) ->
  forall x0 e a,
    EEPROM_read
      (for_loop n x0 (fun x e' => EEPROM_write e' (addr x) (f x)) e) a =
    if (x0 + base <=? a) && (a <? x0 + Z.of_nat n + base)
    then f (a - base) mod 256 else EEPROM_read e a.
Proof.
  intros Haddr. induction n as [|n IH]; intros x0 e a.
  - cbn [for_loop].
    destruct (Z.leb_spec (x0 + base) a), (Z.ltb_spec a (x0 + Z.of_nat 0 + base));
      cbn [andb]; try reflexivity; lia.
  - cbn [for_loop]. rewrite IH, EEPROM_read_write, Haddr.
    destruct (Z.leb_spec (x0 + 1 + base) a), (Z.leb_spec (x0 + base) a),
             (Z.ltb_spec a (x0 + 1 + Z.of_nat n + base)),
             (Z.ltb_spec a (x0 + Z.of_nat (S n) + base)),
             (Z.eqb_spec a (x0 + base)); cbn [andb]; try reflexivity; try lia.
    subst a. f_equal. f_equal. lia.
Qed.

Lemma clear_slot_read (e : eeprom_t) (s a : Z) :
  EEPROM_read (clear_slot e s) a =
  if (Z.shiftl s 5 <=? a) && (a <? Z.shiftl s 5 + 16) then 0 else EEPROM_read e a.
Proof.
  unfold clear_slot.
  rewrite (for_loop_write_at (fun x => x + Z.shiftl s 5) (fun _ => 0) (Z.shiftl s 5))
    by reflexivity.
  cbn [Z.of_nat Pos.of_succ_nat Pos.succ].
  replace (0 + Z.shiftl s 5) with (Z.shiftl s 5) by lia.
  replace (0 + 16 + Z.shiftl s 5) with (Z.shiftl s 5 + 16) by lia.
  reflexivity.
Qed.

Lemma store_addr_read (e : eeprom_t) (s : Z) (rom : list Z) (a : Z) :
  EEPROM_read (store_addr e s rom) a =
  if (Z.shiftl s 5 <=? a) && (a <? Z.shiftl s 5 + 8)
  then nth (Z.to_nat (a - Z.shiftl s 5)) rom 0 mod 256 else EEPROM_read e a.
Proof.
  unfold store_addr.
  rewrite (for_loop_write_at (fun i => i + Z.shiftl s 5)
             (fun i => nth (Z.to_nat i) rom 0) (Z.shiftl s 5)) by reflexivity.
  cbn [Z.of_nat Pos.of_succ_nat Pos.succ].
  replace (0 + Z.shiftl s 5) with (Z.shiftl s 5) by lia.
  replace (0 + 8 + Z.shiftl s 5) with (Z.shiftl s 5 + 8) by lia.
  reflexivity.
Qed.

(** The bytes of a slot, one by one. *)
Lemma slot_bytes_ext (e e' : eeprom_t) (s lo : Z) (n : nat) :
  (forall x, 0 <= x < Z.of_nat n ->
             EEPROM_read e (x + lo + Z.shiftl s 5) =
             EEPROM_read e' (x + lo + Z.shiftl s 5)) ->
  slot_bytes e s lo n = slot_bytes e' s lo n.
Proof.
  intros H. unfold slot_bytes. apply map_ext_in. intros k Hk.
  apply in_seq in Hk. apply H. lia.
Qed.

Lemma slot_bytes_zero_iff (e : eeprom_t) (s lo : Z) (n : nat) :
  slot_bytes e s lo n = repeat 0 n <->
  (forall x, 0 <= x < Z.of_nat n -> EEPROM_read e (x + lo + Z.shiftl s 5) = 0).
Proof.
  unfold slot_bytes. split.
  - intros H x Hx.
    assert (Hn : nth (Z.to_nat x)
                   (map (fun k => EEPROM_read e (Z.of_nat k + lo + Z.shiftl s 5))
                        (seq 0 n)) 0 = 0).
    { rewrite H. apply nth_repeat. }
    rewrite (nth_indep _ 0 (EEPROM_read e (Z.of_nat 0 + lo + Z.shiftl s 5))) in Hn
      by (rewrite length_map, length_seq; lia).
    rewrite (map_nth (fun k => EEPROM_read e (Z.of_nat k + lo + Z.shiftl s 5))) in Hn.
    rewrite seq_nth in Hn by lia. simpl in Hn.
    rewrite Z2Nat.id in Hn by lia. exact Hn.
  - intros H. induction n as [|n IH].
    + reflexivity.
    + rewrite seq_S, map_app, IH.
      * simpl map. rewrite H by lia. change [0] with (repeat 0 1).
        rewrite <- repeat_app. f_equal. apply Nat.add_1_r.
      * intros x Hx. apply H. lia.
Qed.

(** ** [slot_is_full] *)

Lemma for_loop_lor_zero (g : Z -> Z) (n : nat) :
  forall x0 r,
    for_loop n x0 (fun x r' => Z.lor r' (g x)) r = 0 <->
    r = 0 /\ (forall x, x0 <= x < x0 + Z.of_nat n -> g x = 0).
Proof.
  induction n as [|n IH]; intros x0 r.
  - simpl. split; [intros H; split; [exact H | intros; lia] | tauto].
  - simpl for_loop. rewrite IH, Z.lor_eq_0_iff. split.
    + intros [[Hr Hg] H]. split; [exact Hr|]. intros x Hx.
      destruct (Z.eq_dec x x0) as [->|Hne]; [exact Hg | apply H; lia].
    + intros [Hr H]. split; [split; [exact Hr | apply H; lia]|].
      intros x Hx. apply H. lia.
Qed.

Lemma slot_is_full_false_iff (e : eeprom_t) (s : Z) :
  slot_is_full e s = false <->
  (forall x, 0 <= x < 8 -> EEPROM_read e (x + Z.shiftl s 5) = 0).
Proof.
  unfold slot_is_full.
  destruct (Z.eqb_spec
              (for_loop 8 0 (fun x r => Z.lor r (EEPROM_read e (x + Z.shiftl s 5))) 0) 0)
    as [H|H].
  - split; [intros _|reflexivity].
    apply (for_loop_lor_zero (fun x => EEPROM_read e (x + Z.shiftl s 5))) in H.
    intros x Hx. apply H. simpl. lia.
  - split; [discriminate|]. intros Hz. exfalso. apply H.
    apply (for_loop_lor_zero (fun x => EEPROM_read e (x + Z.shiftl s 5))).
    split; [reflexivity|]. intros x Hx. apply Hz. simpl in Hx. lia.
Qed.

Lemma slot_is_full_bytes (e : eeprom_t) (s : Z) :
  slot_is_full e s = false <-> slot_bytes e s 0 8 = repeat 0 8.
Proof.
  rewrite slot_is_full_false_iff, slot_bytes_zero_iff. split.
  - intros H x Hx. replace (x + 0 + Z.shiftl s 5) with (x + Z.shiftl s 5) by lia.
    apply H. simpl in Hx. lia.
  - intros H x Hx. replace (x + Z.shiftl s 5) with (x + 0 + Z.shiftl s 5) by lia.
    apply H. simpl. lia.
Qed.

(** ** The selector *)

Lemma read_selector_bits (pins : pin_levels) :
  read_selector pins =
  Z.b2z (pins 9) + 2 * Z.b2z (pins 7) + 4 * Z.b2z (pins 6) + 8 * Z.b2z (pins 5).
Proof.
  unfold read_selector, digitalRead. cbn [for_loop].
  change (SLOT 0) with 9. change (SLOT (0 + 1)) with 7.
  change (SLOT (0 + 1 + 1)) with 6. change (SLOT (0 + 1 + 1 + 1)) with 5.
  destruct (pins 9), (pins 7), (pins 6), (pins 5); reflexivity.
Qed.

Lemma read_selector_range (pins : pin_levels) : 0 <= read_selector pins <= 15.
Proof.
  rewrite read_selector_bits.
  destruct (pins 9), (pins 7), (pins 6), (pins 5); simpl; lia.
Qed.

Lemma shiftl_5 (s : Z) : Z.shiftl s 5 = 32 * s.
Proof. rewrite Z.shiftl_mul_pow2 by lia. change (2 ^ 5) with 32. lia. Qed.

(** C10. After [update_slot] the global [slot] is the number spelled by the
    four selector lines and nothing else, so it lies in 0..15, and every
    address [x + (slot << 5)] of the 16-byte record lies in that slot's own
    32-byte region, inside bytes 0..511. *)
Theorem update_slot_in_region (pins : pin_levels) (st : state) (x : Z) :
  0 <= x < 16 ->
  let s := slot (update_slot pins st) in
  s = Z.b2z (pins (SLOT 0)) + 2 * Z.b2z (pins (SLOT 1))
      + 4 * Z.b2z (pins (SLOT 2)) + 8 * Z.b2z (pins (SLOT 3))
  /\ 0 <= s <= 15
  /\ 32 * s <= x + Z.shiftl s 5 < 32 * s + 16
  /\ 0 <= x + Z.shiftl s 5 <= 511.
Proof.
  intros Hx s. assert (Hs : s = read_selector pins) by reflexivity.
  pose proof (read_selector_range pins) as Hr. rewrite Hs, shiftl_5.
  split; [apply read_selector_bits|]. lia.
Qed.

Lemma update_slot_in_region_witness :
  let s := slot (update_slot (selector_at 15) (power_on (fun _ => 255))) in
  s = Z.b2z (selector_at 15 (SLOT 0)) + 2 * Z.b2z (selector_at 15 (SLOT 1))
      + 4 * Z.b2z (selector_at 15 (SLOT 2)) + 8 * Z.b2z (selector_at 15 (SLOT 3))
  /\ 0 <= s <= 15
  /\ 32 * s <= 15 + Z.shiftl s 5 < 32 * s + 16
  /\ 0 <= 15 + Z.shiftl s 5 <= 511.
Proof.
  apply (update_slot_in_region (selector_at 15) (power_on (fun _ => 255)) 15). lia.
Defined.

(** ** Emptiness *)

Lemma clear_slot_bytes (e : eeprom_t) (i : Z) :
  slot_bytes (clear_slot e i) i 0 16 = repeat 0 16.
Proof.
  apply slot_bytes_zero_iff. intros x Hx. rewrite clear_slot_read.
  destruct (Z.leb_spec (Z.shiftl i 5) (x + 0 + Z.shiftl i 5)),
           (Z.ltb_spec (x + 0 + Z.shiftl i 5) (Z.shiftl i 5 + 16));
    cbn [andb]; try reflexivity; simpl in Hx; lia.
Qed.


(** ** Bit slots *)

Lemma land_1_testbit (data : Z) :
  negb (Z.land data 1 =? 0) = Z.testbit data 0.
Proof.
  change 1 with (Z.ones 1). rewrite Z.land_ones by lia.
  change (2 ^ 1) with 2. rewrite <- Z.bit0_mod.
  destruct (Z.testbit data 0); reflexivity.
Qed.

Lemma writeByte_loop_slots (n : nat) :
  forall data,
    writeByte_loop n data =
    flat_map (fun i => if Z.testbit data i then hold_low_60us else brief_low_pulse)
             (range 0 n).
Proof.
  induction n as [|n IH]; intros data; [reflexivity|].
  rewrite range_S. cbn [writeByte_loop flat_map].
  rewrite land_1_testbit, IH. f_equal.
  unfold range. rewrite !flat_map_concat_map, !map_map. f_equal.
  apply map_ext. intros k. rewrite Z.shiftr_spec by lia.
  replace (0 + 1 + Z.of_nat k) with (0 + Z.of_nat k + 1) by lia. reflexivity.
Qed.

(** C2, as the sketch has it.  For every byte, [writeByte] emits eight bit
    slots, bit 0 first; a 1 bit holds the line low for 60 microseconds before
    releasing it, a 0 bit is the low pulse released at once; every slot ends
    with 10 ms of recovery. *)
Theorem writeByte_bit_slots (data : Z) :
  writeByte data =
  flat_map (fun i => if Z.testbit data i then hold_low_60us else brief_low_pulse)
           [0; 1; 2; 3; 4; 5; 6; 7].
Proof. apply writeByte_loop_slots. Qed.

(** C2, as stated, fails on the byte 0x00: all eight slots are the brief
    pulse, none holds the line for 60 microseconds. *)
Lemma writeByte_zero_bit_not_held : writeByte 0 <> spec_writeByte 0.
Proof. vm_compute. discriminate. Qed.

(** ** The button branch *)

Lemma bus_trace_app (a b : list event) :
  bus_trace (a ++ b) = bus_trace a ++ bus_trace b.
Proof. apply filter_app. Qed.

Lemma bus_trace_waits (n : nat) : bus_trace (repeat (Delay 1) n) = [].
Proof. induction n as [|n IH]; [reflexivity | exact IH]. Qed.

Lemma loop_write_button (inp : inputs) (st : state) :
  write_button_only inp -> loop inp st = program inp (set_pressed st false true).
Proof.
  intros (Hrx & Hr & Hw). unfold loop, loop_buttons, digitalRead.
  rewrite Hrx, Hr, Hw. reflexivity.
Qed.

Lemma loop_read_button (inp : inputs) (st : state) :
  read_button_only inp -> loop inp st = capture inp (set_pressed st true false).
Proof.
  intros (Hrx & Hr & Hw). unfold loop, loop_buttons, digitalRead.
  rewrite Hrx, Hr, Hw. reflexivity.
Qed.

(** C7. A press of the write button alone on a slot whose eight identifier
    bytes are zero touches neither the one-wire line nor the EEPROM, and
    answers with the five red blinks that mean no code is saved (the red LED
    on for 125 ms and off for 125 ms, five times), followed by the wait for
    the button to be released. *)
Theorem program_empty_slot (inp : inputs) (st : state) :
  write_button_only inp ->
  slot_bytes (eeprom st) (read_selector (selector inp)) 0 8 = repeat 0 8 ->
  bus_trace (snd (loop inp st)) = []
  /\ eeprom (fst (loop inp st)) = eeprom st
  /\ snd (loop inp st)
     = [DigitalWrite RED true; Delay 125; DigitalWrite RED false; Delay 125;
        DigitalWrite RED true; Delay 125; DigitalWrite RED false; Delay 125;
        DigitalWrite RED true; Delay 125; DigitalWrite RED false; Delay 125;
        DigitalWrite RED true; Delay 125; DigitalWrite RED false; Delay 125;
        DigitalWrite RED true; Delay 125; DigitalWrite RED false; Delay 125]
       ++ repeat (Delay 1) (held inp).
Proof.
  intros Hw Hz. rewrite (loop_write_button _ _ Hw).
  apply slot_is_full_bytes in Hz.
  unfold program, update_slot. cbn [eeprom slot set_slot set_code set_pressed].
  rewrite Hz. cbn [fst snd eeprom set_code set_slot].
  split; [|split; reflexivity].
  rewrite bus_trace_app, bus_trace_waits. reflexivity.
Qed.

Lemma program_empty_slot_witness :
  bus_trace (snd (loop (press WRITE (selector_at 5) None 2)
                       (power_on (fun _ => 0)))) = []
  /\ eeprom (fst (loop (press WRITE (selector_at 5) None 2)
                       (power_on (fun _ => 0)))) = eeprom (power_on (fun _ => 0))
  /\ snd (loop (press WRITE (selector_at 5) None 2) (power_on (fun _ => 0)))
     = [DigitalWrite RED true; Delay 125; DigitalWrite RED false; Delay 125;
        DigitalWrite RED true; Delay 125; DigitalWrite RED false; Delay 125;
        DigitalWrite RED true; Delay 125; DigitalWrite RED false; Delay 125;
        DigitalWrite RED true; Delay 125; DigitalWrite RED false; Delay 125;
        DigitalWrite RED true; Delay 125; DigitalWrite RED false; Delay 125]
       ++ repeat (Delay 1) (held (press WRITE (selector_at 5) None 2)).
Proof.
  apply (program_empty_slot (press WRITE (selector_at 5) None 2)
                            (power_on (fun _ => 0))).
  - repeat split.
  - reflexivity.
Defined.

(** C1, as the sketch has it.  A press of the write button alone, on a slot
    that is not empty and with a device found, produces exactly: the search
    that found the device; skip-ROM, bus reset, opcode 0x33; skip-ROM, bus
    reset, opcode 0xD5; the eight identifier bytes of the slot through
    [writeByte], byte 0 first and byte 7 last, the red LED on around each;
    a final bus reset; five green blinks and the wait for release. *)
Theorem program_sequence (inp : inputs) (st : state) (rom : list Z) :
  write_button_only inp ->
  slot_is_full (eeprom st) (read_selector (selector inp)) = true ->
  search inp = Some rom ->
  snd (loop inp st) =
  [OwSearch true; OwSkip; OwReset; OwWrite 0x33; OwSkip; OwReset; OwWrite 0xD5]
  ++ flat_map (fun b => [DigitalWrite RED true; Delay 5] ++ writeByte b
                        ++ [DigitalWrite RED false; Delay 15])
              (slot_bytes (eeprom st) (read_selector (selector inp)) 0 8)
  ++ [OwReset]
  ++ blinkPin GREEN 5 250
  ++ repeat (Delay 1) (held inp).
Proof.
  intros Hw Hfull Hs. rewrite (loop_write_button _ _ Hw).
  unfold program, update_slot. cbn [eeprom slot set_slot set_code set_pressed].
  rewrite Hfull, Hs. cbn [snd code set_addr set_code].
  rewrite for_loop_append. reflexivity.
Qed.

Lemma program_sequence_witness :
  snd (loop (press WRITE (selector_at 5) (Some id5) 1)
            (power_on (eeprom_with 5 id5))) =
  [OwSearch true; OwSkip; OwReset; OwWrite 0x33; OwSkip; OwReset; OwWrite 0xD5]
  ++ flat_map (fun b => [DigitalWrite RED true; Delay 5] ++ writeByte b
                        ++ [DigitalWrite RED false; Delay 15])
              (slot_bytes (eeprom (power_on (eeprom_with 5 id5)))
                          (read_selector (selector (press WRITE (selector_at 5) (Some id5) 1)))
                          0 8)
  ++ [OwReset]
  ++ blinkPin GREEN 5 250
  ++ repeat (Delay 1) (held (press WRITE (selector_at 5) (Some id5) 1)).
Proof.
  apply (program_sequence (press WRITE (selector_at 5) (Some id5) 1)
                          (power_on (eeprom_with 5 id5)) id5).
  - repeat split.
  - vm_compute. reflexivity.
  - reflexivity.
Defined.

(** C1, as stated, fails in the sequence scenario (slot 5 holding
    [0C 11 22 33 44 55 66 <crc>], device found): neither everything the run
    puts on the bus, nor what it puts there after the search, is reset,
    skip-ROM, reset, opcode, reset, opcode, bytes, reset, whatever the two
    opcodes and the byte transmissions are. *)
Lemma program_sequence_not_as_specified :
  (~ exists w c bytes,
       bus_trace (snd (loop (press WRITE (selector_at 5) (Some id5) 0)
                            (power_on (eeprom_with 5 id5))))
       = spec_program_sequence w c bytes)
  /\ (~ exists w c bytes,
         tl (bus_trace (snd (loop (press WRITE (selector_at 5) (Some id5) 0)
                                  (power_on (eeprom_with 5 id5)))))
         = spec_program_sequence w c bytes).
Proof.
  split; intros (w & c & bytes & H);
    apply (f_equal (hd McuReset)) in H; vm_compute in H; discriminate H.
Qed.

(** ** Capture *)

Lemma map_nth_bytes (l : list Z) :
  Forall is_byte l ->
  map (fun k => nth k l 0 mod 256) (seq 0 (List.length l)) = l.
Proof.
  induction 1 as [|a l Ha _ IH]; [reflexivity|].
  simpl. f_equal; [apply Z.mod_small, Ha|].
  rewrite <- seq_shift, map_map. exact IH.
Qed.

Lemma store_addr_bytes (e : eeprom_t) (s : Z) (rom : list Z) :
  slot_bytes (store_addr e s rom) s 0 8 =
  map (fun k => nth k rom 0 mod 256) (seq 0 8).
Proof.
  unfold slot_bytes. apply map_ext_in. intros k Hk. apply in_seq in Hk.
  rewrite store_addr_read.
  destruct (Z.leb_spec (Z.shiftl s 5) (Z.of_nat k + 0 + Z.shiftl s 5)),
           (Z.ltb_spec (Z.of_nat k + 0 + Z.shiftl s 5) (Z.shiftl s 5 + 8));
    cbn [andb]; try lia.
  replace (Z.of_nat k + 0 + Z.shiftl s 5 - Z.shiftl s 5) with (Z.of_nat k) by lia.
  now rewrite Nat2Z.id.
Qed.

Lemma store_addr_label (e : eeprom_t) (s : Z) (rom : list Z) :
  slot_bytes (store_addr e s rom) s 8 8 = slot_bytes e s 8 8.
Proof.
  apply slot_bytes_ext. intros x Hx. rewrite store_addr_read.
  destruct (Z.leb_spec (Z.shiftl s 5) (x + 8 + Z.shiftl s 5)),
           (Z.ltb_spec (x + 8 + Z.shiftl s 5) (Z.shiftl s 5 + 8));
    cbn [andb]; try reflexivity; lia.
Qed.

(** C8. A press of the read button alone with a device found stores the
    eight bytes the search returned in the selected slot as they are: reading
    the slot back gives them byte for byte, whatever they are; the label of
    the slot is not touched. *)
Theorem capture_round_trip (inp : inputs) (st : state) (X : list Z) :
  read_button_only inp ->
  search inp = Some X ->
  List.length X = 8%nat ->
  Forall is_byte X ->
  let st' := fst (loop inp st) in
  slot st' = read_selector (selector inp)
  /\ slot_bytes (eeprom st') (slot st') 0 8 = X
  /\ slot_bytes (eeprom st') (slot st') 8 8 = slot_bytes (eeprom st) (slot st') 8 8.
Proof.
  intros Hr Hs Hlen HX st'. subst st'. rewrite (loop_read_button _ _ Hr).
  unfold capture, update_slot. rewrite Hs.
  cbn [fst eeprom slot addr set_slot set_code set_pressed set_addr set_eeprom].
  split; [reflexivity|]. split.
  - rewrite store_addr_bytes, <- Hlen. now apply map_nth_bytes.
  - apply store_addr_label.
Qed.

Lemma capture_round_trip_witness :
  let st' := fst (loop (press READ (selector_at 3) (Some [1; 2; 3; 4; 5; 6; 7; 255]) 0)
                       (power_on (eeprom_with 3 id5))) in
  slot st' = read_selector (selector (press READ (selector_at 3)
                                            (Some [1; 2; 3; 4; 5; 6; 7; 255]) 0))
  /\ slot_bytes (eeprom st') (slot st') 0 8 = [1; 2; 3; 4; 5; 6; 7; 255]
  /\ slot_bytes (eeprom st') (slot st') 8 8
     = slot_bytes (eeprom (power_on (eeprom_with 3 id5))) (slot st') 8 8.
Proof.
  apply (capture_round_trip
           (press READ (selector_at 3) (Some [1; 2; 3; 4; 5; 6; 7; 255]) 0)
           (power_on (eeprom_with 3 id5)) [1; 2; 3; 4; 5; 6; 7; 255]).
  - repeat split.
  - reflexivity.
  - reflexivity.
  - repeat constructor; unfold is_byte; lia.
Defined.

(** ** The pending command *)

Lemma read_command_pending (buf : list Z) (choice : Z) :
  choice <> -1 -> read_command buf choice = choice.
Proof.
  intros H. induction buf as [|c buf IH]; [reflexivity|].
  cbn [read_command]. destruct (Z.eqb_spec choice (-1)); [contradiction | exact IH].
Qed.

Lemma loop_serial_dump (inp : inputs) (st : state) :
  read_command (serial_rx inp) (serial_choice st) = 3 ->
  loop_serial inp st =
  (set_slot (set_serial_choice st 3) 16,
   Delay 100 :: snd (serial_dump (set_serial_choice st 3)) ++ printWelcome).
Proof. intros H. unfold loop_serial. rewrite H. reflexivity. Qed.

(** Every other command, known or not, leaves no command pending once it
    is over; a write command is not over while it waits for its input. *)
Lemma other_commands_leave_none_pending (inp : inputs) (st : state) :
  read_command (serial_rx inp) (serial_choice st) <> 3 ->
  fst (fst (serial_write_slot inp (set_serial_choice st 1))) <> Waiting ->
  serial_choice (fst (loop_serial inp st)) = -1.
Proof.
  intros H Hw. unfold loop_serial.
  set (c := read_command (serial_rx inp) (serial_choice st)) in *.
  cbn [serial_choice set_serial_choice].
  destruct (Z.eqb_spec c 0); [reflexivity|].
  destruct (Z.eqb_spec c 1) as [->|].
  - revert Hw. unfold serial_write_slot.
    destruct (serial_code inp) as [|c0 code_line]; [intros Hw; now contradiction Hw|].
    destruct (read_hexstr 6 0 (c0 :: code_line) []) as [msg|hexstr rest];
      [reflexivity|].
    destruct (read_result hexstr); [|reflexivity].
    destruct (rest ++ serial_name inp); [intros Hw; now contradiction Hw|].
    reflexivity.
  - destruct (Z.eqb_spec c 2); [reflexivity|].
    destruct (Z.eqb_spec c 3); [contradiction | reflexivity].
Qed.

(** C3, the dump command.  After a [D] the command variable still holds 3:
    whatever bytes the console sends next, [R] among them, the next run of
    [loop] does not look at them and dumps again. *)
Theorem dump_stays_pending (e : eeprom_t) (sel : pin_levels) (c : Z) (rest : list Z) :
  let st1 := fst (loop (console [chr "D"] sel) (power_on e)) in
  serial_choice st1 = 3
  /\ serial_choice (fst (loop (console (c :: rest) sel) st1)) = 3
  /\ snd (loop (console (c :: rest) sel) st1)
     = snd (loop (console [chr "D"] sel) (power_on e)).
Proof.
  intros st1.
  assert (H1 : loop (console [chr "D"] sel) (power_on e) =
               (set_slot (set_serial_choice (power_on e) 3) 16,
                Delay 100 :: snd (serial_dump (set_serial_choice (power_on e) 3))
                          ++ printWelcome)).
  { apply (loop_serial_dump (console [chr "D"] sel) (power_on e)). reflexivity. }
  assert (Hst1 : st1 = set_slot (set_serial_choice (power_on e) 3) 16).
  { unfold st1. now rewrite H1. }
  assert (H2 : loop (console (c :: rest) sel) st1 =
               (set_slot (set_serial_choice st1 3) 16,
                Delay 100 :: snd (serial_dump (set_serial_choice st1 3))
                          ++ printWelcome)).
  { apply (loop_serial_dump (console (c :: rest) sel) st1).
    rewrite Hst1. apply read_command_pending. discriminate. }
  rewrite H2, H1, Hst1. repeat split.
Qed.

(** ** The two-button erase *)

(** The clear command, and every other operation but the chord, reads the
    selector first. *)
Lemma console_clear_selected (inp : inputs) (st : state) :
  read_command (serial_rx inp) (serial_choice st) = 2 ->
  eeprom (fst (loop_serial inp st)) =
  clear_slot (eeprom st) (read_selector (selector inp))
  /\ slot (fst (loop_serial inp st)) = read_selector (selector inp).
Proof. intros H. unfold loop_serial. rewrite H. split; reflexivity. Qed.

Lemma capture_selected (inp : inputs) (st : state) :
  slot (fst (capture inp st)) = read_selector (selector inp).
Proof. unfold capture. destruct (search inp); reflexivity. Qed.

Lemma program_selected (inp : inputs) (st : state) :
  slot (fst (program inp st)) = read_selector (selector inp).
Proof.
  unfold program.
  destruct (slot_is_full _ _); [destruct (search inp)|]; reflexivity.
Qed.

(** C4, the button chord.  From power-on with the selector at 5 and no
    device on the line, holding both buttons through the three pulses zeroes
    the record of slot 0, the value [slot] had before, and leaves slot 5 as
    it was; [slot] becomes 5 only afterwards, in the capture that follows. *)
Theorem chord_erase_uses_stale_slot (e : eeprom_t) :
  let st' := fst (loop (hold_both (selector_at 5) None) (power_on e)) in
  slot_bytes (eeprom st') 0 0 16 = repeat 0 16
  /\ slot_bytes (eeprom st') 5 0 16 = slot_bytes e 5 0 16
  /\ slot st' = 5.
Proof.
  intros st'.
  assert (He : eeprom st' = clear_slot e 0) by reflexivity.
  rewrite He. split; [|split; [|reflexivity]].
  - apply (clear_slot_bytes e 0).
  - apply slot_bytes_ext. intros x Hx. rewrite clear_slot_read.
    change (Z.shiftl 0 5) with 0. change (Z.shiftl 5 5) with 160.
    destruct (Z.leb_spec 0 (x + 0 + 160)), (Z.ltb_spec (x + 0 + 160) (0 + 16));
      cbn [andb]; try reflexivity; simpl in Hx; lia.
Qed.

(** After a dump [slot] is 0x10: the chord then zeroes bytes 512..527, which
    belong to none of the sixteen slots, and again not the selected slot. *)
Lemma chord_erase_after_dump (e : eeprom_t) :
  let st1 := fst (loop (console [chr "D"] (selector_at 5)) (power_on e)) in
  let st' := fst (loop (hold_both (selector_at 5) None) st1) in
  slot st1 = 16
  /\ slot_bytes (eeprom st') 16 0 16 = repeat 0 16
  /\ slot_bytes (eeprom st') 5 0 16 = slot_bytes e 5 0 16.
Proof.
  intros st1 st'.
  assert (Hst1 : st1 = set_slot (set_serial_choice (power_on e) 3) 16).
  { unfold st1.
    change (loop (console [chr "D"] (selector_at 5)) (power_on e))
      with (loop_serial (console [chr "D"] (selector_at 5)) (power_on e)).
    now rewrite (loop_serial_dump (console [chr "D"] (selector_at 5)) (power_on e)
                   eq_refl). }
  assert (He : eeprom st' = clear_slot e 16).
  { unfold st'. rewrite Hst1. reflexivity. }
  rewrite He, Hst1. split; [reflexivity|]. split.
  - apply (clear_slot_bytes e 16).
  - apply slot_bytes_ext. intros x Hx. rewrite clear_slot_read.
    change (Z.shiftl 16 5) with 512. change (Z.shiftl 5 5) with 160.
    destruct (Z.leb_spec 512 (x + 0 + 160)), (Z.ltb_spec (x + 0 + 160) (512 + 16));
      cbn [andb]; try reflexivity; simpl in Hx; lia.
Qed.

(** ** The console write *)

(** The loop of lines 192-195 keeps the EEPROM and the checksum input in
    step. *)
Lemma for_loop_code (W : eeprom_t -> Z -> eeprom_t) (f : Z -> Z) (n : nat) :
  forall x0 e start,
    for_loop n x0 (fun x '(e', start') => (W e' x, start' ++ [f x])) (e, start) =
    (for_loop n x0 (fun x e' => W e' x) e, start ++ map f (range x0 n)).
Proof.
  induction n as [|n IH]; intros x0 e start.
  - cbn [for_loop]. unfold range. cbn [seq map]. now rewrite app_nil_r.
  - rewrite range_S. cbn [for_loop map]. rewrite IH, <- app_assoc. reflexivity.
Qed.

Lemma crc8_bits_byte (n : nat) :
  forall crc inbyte, 0 <= crc < 256 -> 0 <= crc8_bits n crc inbyte < 256.
Proof.
  induction n as [|n IH]; intros crc inbyte Hc; [exact Hc|].
  cbn [crc8_bits]. apply IH.
  assert (Hs : 0 <= Z.shiftr crc 1 < 256).
  { rewrite Z.shiftr_div_pow2 by lia. change (2 ^ 1) with 2.
    split; [apply Z.div_pos; lia|].
    apply Z.div_lt_upper_bound; lia. }
  destruct (negb (Z.land (Z.lxor crc inbyte) 1 =? 0)); [|exact Hs].
  apply Z.mod_pos_bound. lia.
Qed.

Lemma fold_left_byte (f : Z -> Z -> Z) :
  (forall c b, 0 <= f c b < 256) ->
  forall l c, 0 <= c < 256 -> 0 <= fold_left f l c < 256.
Proof.
  intros Hf. induction l as [|b l IH]; intros c Hc; [exact Hc|].
  cbn [fold_left]. apply IH, Hf.
Qed.

Lemma crc8_byte (bytes : list Z) : 0 <= crc8 bytes < 256.
Proof.
  unfold crc8. apply fold_left_byte; [|lia].
  intros c b. apply crc8_bits_byte. apply Z.mod_pos_bound. lia.
Qed.

Lemma save_code_bytes (e : eeprom_t) (s : Z) (result : list Z) :
  List.length result = 6%nat ->
  Forall is_byte result ->
  slot_bytes (save_code e s result) s 0 8 =
  0x0C :: result ++ [crc8 (0x0C :: result)].
Proof.
  intros Hlen Hb. unfold save_code.
  rewrite (for_loop_code
             (fun e' x => EEPROM_write e' (x + Z.shiftl s 5 + 1)
                                       (nth (Z.to_nat x) result 0 mod 256))
             (fun x => nth (Z.to_nat x) result 0 mod 256)).
  assert (Hstart : [0x0C] ++ map (fun x => nth (Z.to_nat x) result 0 mod 256) (range 0 6)
                   = 0x0C :: result).
  { cbn [app]. f_equal. unfold range. rewrite map_map.
    rewrite <- Hlen. etransitivity; [|apply (map_nth_bytes result Hb)].
    apply map_ext. intros k. cbn [Z.add]. now rewrite Nat2Z.id. }
  rewrite Hstart.
  pose proof (crc8_byte (0x0C :: result)) as Hcrc.
  assert (Hread : forall k, (k < 8)%nat ->
            EEPROM_read
              (EEPROM_write
                 (for_loop 6 0
                    (fun x e' => EEPROM_write e' (x + Z.shiftl s 5 + 1)
                                              (nth (Z.to_nat x) result 0 mod 256))
                    (EEPROM_write e (0 + Z.shiftl s 5) 0x0C))
                 (7 + Z.shiftl s 5) (crc8 (0x0C :: result)))
              (Z.of_nat k + 0 + Z.shiftl s 5)
            = nth k (0x0C :: result ++ [crc8 (0x0C :: result)]) 0).
  { intros k Hk.
    set (crc := crc8 (0x0C :: result)) in *.
    set (b := Z.shiftl s 5).
    rewrite EEPROM_read_write.
    rewrite (for_loop_write_at (fun x => x + b + 1)
               (fun x => nth (Z.to_nat x) result 0 mod 256) (b + 1))
      by (intros; lia).
    rewrite EEPROM_read_write.
    destruct result as [|p0 [|p1 [|p2 [|p3 [|p4 [|p5 [|? ?]]]]]]]; try discriminate Hlen.
    repeat match goal with
           | H : Forall is_byte (_ :: _) |- _ => inversion_clear H
           end.
    unfold is_byte in *.
    do 8 (destruct k as [|k]; [solve [read_saved_byte]|]).
    exfalso. clear - Hk. lia. }
  unfold slot_bytes. cbn [seq map].
  rewrite (Hread 0%nat), (Hread 1%nat), (Hread 2%nat), (Hread 3%nat),
          (Hread 4%nat), (Hread 5%nat), (Hread 6%nat), (Hread 7%nat) by lia.
  destruct result as [|p0 [|p1 [|p2 [|p3 [|p4 [|p5 [|? ?]]]]]]]; try discriminate Hlen.
  reflexivity.
Qed.

Lemma hex_digit_val_dec_range (ch : Z) : -1 <= hex_digit_val_dec ch <= 15.
Proof.
  unfold hex_digit_val_dec.
  repeat match goal with
         | |- context [if ?c then _ else _] => destruct c; [lia|]
         end.
  lia.
Qed.

Lemma hexstr_to_int_range (hex : list Z) :
  hexstr_to_int hex = -1 \/ is_byte (hexstr_to_int hex).
Proof.
  destruct hex as [|h0 [|h1 [|h2 hex]]]; try (left; reflexivity).
  unfold hexstr_to_int, is_byte.
  pose proof (hex_digit_val_dec_range (toupper h0)) as H0.
  pose proof (hex_digit_val_dec_range (toupper h1)) as H1.
  destruct (Z.eqb_spec (hex_digit_val_dec (toupper h0)) (-1)); [left; reflexivity|].
  destruct (Z.eqb_spec (hex_digit_val_dec (toupper h1)) (-1)); [left; reflexivity|].
  right. lia.
Qed.

Lemma read_result_bytes (hexstr : list (list Z)) :
  forall result,
    read_result hexstr = Some result ->
    List.length result = List.length hexstr /\ Forall is_byte result.
Proof.
  induction hexstr as [|h t IH]; intros result H; cbn [read_result] in H.
  - inversion H. split; [reflexivity | constructor].
  - destruct (Z.eqb_spec (hexstr_to_int h) (-1)) as [|Hne]; [discriminate|].
    destruct (read_result t) as [l|]; [|discriminate].
    inversion H; subst result. destruct (IH l eq_refl) as [Hl Hb].
    split; [cbn [List.length]; now rewrite Hl|].
    constructor; [|exact Hb].
    destruct (hexstr_to_int_range h); [contradiction | assumption].
Qed.

Lemma read_hexstr_length (n : nat) :
  forall x buf acc hexstr rest,
    read_hexstr n x buf acc = Good hexstr rest ->
    List.length hexstr = (List.length acc + n)%nat.
Proof.
  induction n as [|n IH]; intros x buf acc hexstr rest H; cbn [read_hexstr] in H.
  - inversion H; subst. apply plus_n_O.
  - destruct (Serial_read buf) as [c0 b0].
    destruct (negb (c0 =? chr "0")); [discriminate|].
    destruct (Serial_read b0) as [c1 b1].
    destruct (negb (tolower c1 =? chr "x")); [discriminate|].
    destruct (Serial_read b1) as [h0 b2].
    destruct (Serial_read b2) as [h1 b3].
    destruct (x <? 5).
    + destruct (Serial_read b3) as [c2 b4].
      destruct (negb (c2 =? chr ",")); [discriminate|].
      destruct (Serial_read b4) as [c3 b5].
      destruct (negb (c3 =? chr " ")); [discriminate|].
      apply IH in H. rewrite H, length_app. cbn [List.length].
      now rewrite <- Nat.add_assoc.
    + apply IH in H. rewrite H, length_app. cbn [List.length].
      now rewrite <- Nat.add_assoc.
Qed.

(** The name loop writes label bytes only. *)
Lemma save_name_read (e : eeprom_t) (s : Z) (buf : list Z) (a : Z) :
  a < 8 + Z.shiftl s 5 \/ 16 + Z.shiftl s 5 <= a ->
  EEPROM_read (save_name e s buf) a = EEPROM_read e a.
Proof.
  unfold save_name. generalize (Z.shiftl s 5). intros b.
  assert (H : forall n x0 e' buf',
             a < x0 + 8 + b \/ x0 + Z.of_nat n + 8 + b <= a ->
             EEPROM_read
               (fst (for_loop n x0
                       (fun x '(e'', b') =>
                          match b' with
                          | [] => (EEPROM_write e'' (x + 8 + b) 0, [])
                          | c :: rest => (EEPROM_write e'' (x + 8 + b) c, rest)
                          end)
                       (e', buf'))) a
             = EEPROM_read e' a).
  { induction n as [|n IH]; intros x0 e' buf' Ha; [reflexivity|].
    cbn [for_loop].
    destruct buf' as [|c rest]; rewrite IH by lia; rewrite EEPROM_read_write;
      destruct (Z.eqb_spec a (x0 + 8 + b)); try reflexivity; lia. }
  intros Ha. apply H. lia.
Qed.

Lemma loop_serial_branch (inp : inputs) (st : state) :
  serial_rx inp <> [] -> loop inp st = loop_serial inp st.
Proof.
  intros H. unfold loop. destruct (serial_rx inp); [contradiction | reflexivity].
Qed.

Lemma loop_serial_write (inp : inputs) (st : state) :
  read_command (serial_rx inp) (serial_choice st) = 1 ->
  loop_serial inp st =
  match serial_write_slot inp (set_serial_choice st 1) with
  | (Completed, st1, tr) => (st1, Delay 100 :: tr ++ printWelcome)
  | (Restarted, st1, tr) => (st1, Delay 100 :: tr)
  | (Waiting, st1, tr) => (st1, Delay 100 :: tr)
  end.
Proof.
  intros H. unfold loop_serial. rewrite H.
  cbn [serial_choice set_serial_choice]. change (1 =? 0) with false.
  change (1 =? 1) with true. cbn iota.
  destruct (serial_write_slot inp (set_serial_choice st 1)) as [[[| |] st1] tr];
    reflexivity.
Qed.

(** C5. A console write command that reads six well-formed fields stores, in
    the selected slot, the family code 0x0C, the six bytes in the order they
    were typed, and the CRC-8 of those seven bytes; so byte 7 of the
    identifier read back is the checksum of its own first seven bytes. *)
Theorem console_write_identifier
    (inp : inputs) (st : state) (hexstr : list (list Z)) (rest payload : list Z) :
  serial_rx inp <> [] ->
  read_command (serial_rx inp) (serial_choice st) = 1 ->
  read_hexstr 6 0 (serial_code inp) [] = Good hexstr rest ->
  read_result hexstr = Some payload ->
  let id := slot_bytes (eeprom (fst (loop inp st)))
                       (read_selector (selector inp)) 0 8 in
  List.length payload = 6%nat
  /\ Forall is_byte payload
  /\ id = 0x0C :: payload ++ [crc8 (0x0C :: payload)]
  /\ nth 7 id 0 = crc8 (firstn 7 id).
Proof.
  intros Hrx Hcmd Hform Hres id.
  destruct (read_result_bytes hexstr payload Hres) as [Hlen Hb].
  rewrite (read_hexstr_length _ _ _ _ _ _ Hform) in Hlen. cbn [List.length Nat.add] in Hlen.
  assert (Hid : id = 0x0C :: payload ++ [crc8 (0x0C :: payload)]).
  { unfold id. rewrite (loop_serial_branch _ _ Hrx), (loop_serial_write _ _ Hcmd).
    unfold serial_write_slot.
    destruct (serial_code inp) as [|c0 code_line] eqn:Hcode; [discriminate Hform|].
    rewrite Hform, Hres.
    destruct (rest ++ serial_name inp) as [|n0 name];
      cbn [fst eeprom slot update_slot set_slot set_code set_serial_choice set_eeprom].
    - exact (save_code_bytes (eeprom st) (read_selector (selector inp)) payload
                             Hlen Hb).
    - rewrite <- (save_code_bytes (eeprom st) (read_selector (selector inp)) payload
                                  Hlen Hb).
      apply slot_bytes_ext. intros x Hx. apply save_name_read. simpl in Hx. lia. }
  split; [exact Hlen|]. split; [exact Hb|]. split; [exact Hid|].
  rewrite Hid.
  destruct payload as [|p0 [|p1 [|p2 [|p3 [|p4 [|p5 [|? ?]]]]]]]; try discriminate Hlen.
  reflexivity.
Qed.

Lemma console_write_identifier_witness :
  let inp := console_write (typed "w") (typed "0x11, 0x22, 0x33, 0x44, 0x55, 0xaB")
                           (typed "home") (selector_at 5) in
  let id := slot_bytes (eeprom (fst (loop inp (power_on (fun _ => 255)))))
                       (read_selector (selector inp)) 0 8 in
  List.length [0x11; 0x22; 0x33; 0x44; 0x55; 0xAB] = 6%nat
  /\ Forall is_byte [0x11; 0x22; 0x33; 0x44; 0x55; 0xAB]
  /\ id = 0x0C :: [0x11; 0x22; 0x33; 0x44; 0x55; 0xAB]
             ++ [crc8 (0x0C :: [0x11; 0x22; 0x33; 0x44; 0x55; 0xAB])]
  /\ nth 7 id 0 = crc8 (firstn 7 id).
Proof.
  intros inp.
  apply (console_write_identifier inp (power_on (fun _ => 255))
           [typed "11"; typed "22"; typed "33"; typed "44"; typed "55"; typed "aB"]
           [] [0x11; 0x22; 0x33; 0x44; 0x55; 0xAB]).
  - discriminate.
  - reflexivity.
  - reflexivity.
  - reflexivity.
Defined.

(** ** The dump *)

Lemma string_app_assoc (a b c : string) : ((a ++ b) ++ c = a ++ b ++ c)%string.
Proof. induction a as [|x a IH]; [reflexivity|]. cbn. now rewrite IH. Qed.

Lemma string_app_nil_r (a : string) : (a ++ "" = a)%string.
Proof. induction a as [|x a IH]; [reflexivity|]. cbn. now rewrite IH. Qed.

Lemma serial_text_app (a b : list event) :
  serial_text (a ++ b) = (serial_text a ++ serial_text b)%string.
Proof.
  induction a as [|ev a IH]; [reflexivity|].
  destruct ev; cbn [app serial_text]; try exact IH.
  now rewrite IH, string_app_assoc.
Qed.

(** For a byte, the padding rule of [print_mem] gives two digits. *)
Lemma byte_text_digits (b : Z) :
  is_byte b ->
  byte_text b =
  String "0" (String "x" (String (hex_digit (b / 16))
                            (String (hex_digit (b mod 16)) EmptyString))).
Proof.
  intros [H0 H1]. unfold byte_text. cbn [printNumber_hex].
  destruct (Z.ltb_spec b 16) as [Hlt|Hge].
  - rewrite Z.div_small by lia. reflexivity.
  - assert (Hq : 1 <= b / 16 < 16).
    { split; [apply Z.div_le_lower_bound; lia | apply Z.div_lt_upper_bound; lia]. }
    destruct (Z.eqb_spec (b / 16) 0) as [Hz|_]; [lia|].
    rewrite (Z.div_small (b / 16) 16) by lia.
    rewrite (Z.mod_small (b / 16) 16) by lia. reflexivity.
Qed.

Lemma serial_text_name_loop (e : eeprom_t) (s : Z) (n : nat) :
  forall x,
    serial_text (print_mem_name_loop n x e s) =
    name_chars (map (fun k => EEPROM_read e (x + Z.of_nat k + 8 + Z.shiftl s 5))
                    (seq 0 n)).
Proof.
  induction n as [|n IH]; intros x; [reflexivity|].
  cbn [print_mem_name_loop seq map name_chars].
  replace (x + Z.of_nat 0 + 8 + Z.shiftl s 5) with (x + 8 + Z.shiftl s 5) by lia.
  destruct (EEPROM_read e (x + 8 + Z.shiftl s 5) =? 0); [reflexivity|].
  cbn [serial_text print]. rewrite IH. cbn [String.append]. f_equal. f_equal.
  rewrite <- seq_shift, map_map. apply map_ext. intros k. f_equal. lia.
Qed.

Lemma serial_text_name (e : eeprom_t) (s : Z) :
  serial_text (print_mem_name e s) = label_text e s.
Proof.
  unfold print_mem_name, label_text.
  change (hd 0 (slot_bytes e s 8 8)) with (EEPROM_read e (0 + 8 + Z.shiftl s 5)).
  destruct (EEPROM_read e (0 + 8 + Z.shiftl s 5) =? 0); [reflexivity|].
  apply serial_text_name_loop.
Qed.

Lemma serial_text_mem (e : eeprom_t) (s : Z) :
  serial_text (print_mem e s 1 7) = payload_text e s.
Proof.
  unfold print_mem, payload_text.
  destruct (slot_is_full e s); [|reflexivity].
  rewrite for_loop_append.
  change (range 1 (Z.to_nat (7 - 1))) with [1; 2; 3; 4; 5; 6].
  unfold slot_bytes. cbn [seq map flat_map join_bytes app].
  change (Z.of_nat 0 + 1) with 1. change (Z.of_nat 1 + 1) with 2.
  change (Z.of_nat 2 + 1) with 3. change (Z.of_nat 3 + 1) with 4.
  change (Z.of_nat 4 + 1) with 5. change (Z.of_nat 5 + 1) with 6.
  generalize (EEPROM_read e (1 + Z.shiftl s 5)), (EEPROM_read e (2 + Z.shiftl s 5)),
             (EEPROM_read e (3 + Z.shiftl s 5)), (EEPROM_read e (4 + Z.shiftl s 5)),
             (EEPROM_read e (5 + Z.shiftl s 5)), (EEPROM_read e (6 + Z.shiftl s 5)).
  intros v1 v2 v3 v4 v5 v6. unfold byte_text.
  destruct (v1 <? 16), (v2 <? 16), (v3 <? 16), (v4 <? 16), (v5 <? 16), (v6 <? 16);
    cbn -[printNumber_hex]; rewrite string_app_nil_r; reflexivity.
Qed.

Lemma serial_text_entry (e : eeprom_t) (s : Z) :
  serial_text (dump_entry e s) = entry_text e s.
Proof.
  unfold dump_entry, entry_text.
  rewrite !serial_text_app, serial_text_name, serial_text_mem.
  cbn [serial_text print print_HEX]. rewrite !string_app_assoc. reflexivity.
Qed.

Lemma serial_text_entries (e : eeprom_t) (l : list Z) :
  serial_text (flat_map (dump_entry e) l) = text_of (map (entry_text e) l).
Proof.
  induction l as [|a l IH]; [reflexivity|].
  cbn [flat_map map text_of fold_right].
  rewrite serial_text_app, serial_text_entry. f_equal. exact IH.
Qed.

(** C9, as the sketch has it.  A dump command prints sixteen lines, for the
    slots 0 to F in order; each line has the slot number, the label up to its
    first NUL or [<UNNAMED>], and bytes 1 to 6 of the identifier or
    [<EMPTY SLOT>] when all eight identifier bytes are zero.  The family code
    and the checksum are not printed.  The EEPROM is left as it was. *)
Theorem dump_all_entries (inp : inputs) (st : state) :
  serial_rx inp <> [] ->
  read_command (serial_rx inp) (serial_choice st) = 3 ->
  serial_text (snd (loop inp st)) =
    (("Dumping all slots..." ++ CRLF)
     ++ text_of (map (entry_text (eeprom st))
                     [0; 1; 2; 3; 4; 5; 6; 7; 8; 9; 10; 11; 12; 13; 14; 15])
     ++ ("[SUCCESS] Done dumping all slots!" ++ LF ++ CRLF)
     ++ serial_text printWelcome)%string
  /\ map (fun s => printNumber_hex 8 s "")
         [0; 1; 2; 3; 4; 5; 6; 7; 8; 9; 10; 11; 12; 13; 14; 15]
     = ["0"; "1"; "2"; "3"; "4"; "5"; "6"; "7"; "8"; "9"; "A"; "B"; "C"; "D"; "E";
        "F"]%string
  /\ eeprom (fst (loop inp st)) = eeprom st.
Proof.
  intros Hrx Hcmd.
  rewrite (loop_serial_branch _ _ Hrx), (loop_serial_dump _ _ Hcmd).
  split; [|split; reflexivity].
  cbn [snd serial_text]. unfold serial_dump. cbn [snd eeprom set_serial_choice].
  rewrite for_loop_append. cbn [app].
  change (range 0 16) with [0; 1; 2; 3; 4; 5; 6; 7; 8; 9; 10; 11; 12; 13; 14; 15].
  cbn [serial_text println]. rewrite !serial_text_app, serial_text_entries.
  cbn [serial_text println]. rewrite !string_app_assoc. reflexivity.
Qed.

Lemma dump_all_entries_witness :
  let inp := console (typed "d") (selector_at 7) in
  let st := power_on (eeprom_with 2 id_01) in
  serial_text (snd (loop inp st)) =
    (("Dumping all slots..." ++ CRLF)
     ++ text_of (map (entry_text (eeprom st))
                     [0; 1; 2; 3; 4; 5; 6; 7; 8; 9; 10; 11; 12; 13; 14; 15])
     ++ ("[SUCCESS] Done dumping all slots!" ++ LF ++ CRLF)
     ++ serial_text printWelcome)%string
  /\ map (fun s => printNumber_hex 8 s "")
         [0; 1; 2; 3; 4; 5; 6; 7; 8; 9; 10; 11; 12; 13; 14; 15]
     = ["0"; "1"; "2"; "3"; "4"; "5"; "6"; "7"; "8"; "9"; "A"; "B"; "C"; "D"; "E";
        "F"]%string
  /\ eeprom (fst (loop inp st)) = eeprom st.
Proof.
  intros inp st. apply (dump_all_entries inp st).
  - discriminate.
  - reflexivity.
Defined.

(** C9, as stated, fails: two stores whose slot 0 is populated with different
    identifiers, [0C 11 22 33 44 55 66 <crc>] and [01 11 22 33 44 55 66 FF],
    give the same dump, byte for byte, so the entry of a populated slot does
    not show its stored identifier. *)
Lemma dump_hides_identifier_bytes :
  slot_is_full (eeprom_with 0 id_0C) 0 = true
  /\ slot_is_full (eeprom_with 0 id_01) 0 = true
  /\ slot_bytes (eeprom_with 0 id_0C) 0 0 8 <> slot_bytes (eeprom_with 0 id_01) 0 0 8
  /\ snd (loop (console (typed "D") (selector_at 0)) (power_on (eeprom_with 0 id_0C)))
     = snd (loop (console (typed "D") (selector_at 0)) (power_on (eeprom_with 0 id_01))).
Proof.
  split; [vm_compute; reflexivity|]. split; [vm_compute; reflexivity|].
  split; [vm_compute; discriminate|]. vm_compute. reflexivity.
Qed.

(** * Further properties of the sketch *)

(** ** Hexadecimal input *)

Lemma hex_digit_val_dec_cases (ch : Z) :
  hex_digit_val_dec ch =
  if (48 <=? ch) && (ch <=? 57) then ch - 48
  else if (65 <=? ch) && (ch <=? 70) then ch - 55
  else -1.
Proof.
  unfold hex_digit_val_dec. eval_chr.
  repeat match goal with
         | |- context [ch =? ?v] =>
             destruct (Z.eqb_spec ch v) as [->|?]; [reflexivity|]
         end.
  destruct (Z.leb_spec 48 ch), (Z.leb_spec ch 57), (Z.leb_spec 65 ch),
           (Z.leb_spec ch 70); cbn [andb]; lia.
Qed.

(** X1. On a character, [hex_digit_val_dec] gives the value of the digits
    0-9 and of the capitals A-F, and -1 on every other character, small
    letters included.  A character is a code of eight bits, read as signed or
    as unsigned. *)
Theorem hex_digit_val_dec_value (ch : Z) :
  -128 <= ch <= 255 ->
  hex_digit_val_dec ch =
  if (chr "0" <=? ch) && (ch <=? chr "9") then ch - chr "0"
  else if (chr "A" <=? ch) && (ch <=? chr "F") then ch - chr "A" + 10
  else -1.
Proof.
  intros _. rewrite hex_digit_val_dec_cases. eval_chr.
  destruct ((48 <=? ch) && (ch <=? 57)); [reflexivity|].
  destruct ((65 <=? ch) && (ch <=? 70)); [lia | reflexivity].
Qed.

Lemma hex_digit_val_dec_value_witness :
  hex_digit_val_dec (chr "F") =
  if (chr "0" <=? chr "F") && (chr "F" <=? chr "9") then chr "F" - chr "0"
  else if (chr "A" <=? chr "F") && (chr "F" <=? chr "F") then chr "F" - chr "A" + 10
  else -1.
Proof. apply (hex_digit_val_dec_value (chr "F")). vm_compute. split; discriminate. Defined.

Lemma toupper_value (c : Z) :
  toupper c = if (97 <=? c) && (c <=? 122) then c - 32 else c.
Proof. unfold toupper. eval_chr. reflexivity. Qed.

Lemma hex_digit_val_dec_toupper (c : Z) :
  hex_digit_val_dec (toupper c) = -1 <-> is_hex_char c = false.
Proof.
  rewrite hex_digit_val_dec_cases, toupper_value.
  unfold is_hex_char, is_hex_upper. eval_chr.
  destruct (Z.leb_spec 97 c), (Z.leb_spec c 122); cbn [andb];
    repeat match goal with
           | |- context [?u <=? ?v] => destruct (Z.leb_spec u v); try lia
           end;
    cbn [andb orb]; split; intros; try reflexivity; try discriminate; lia.
Qed.

(** X2. [hexstr_to_int] answers a number exactly on two hexadecimal digits,
    capital or small; then the number is a byte.  On anything else, a string
    of another length included, it answers -1. *)
Theorem hexstr_to_int_accepts (hex : list Z) :
  (hexstr_to_int hex <> -1 <->
   exists h0 h1, hex = [h0; h1] /\ is_hex_char h0 = true /\ is_hex_char h1 = true)
  /\ (hexstr_to_int hex = -1 \/ 0 <= hexstr_to_int hex <= 255).
Proof.
  split.
  - destruct hex as [|h0 [|h1 [|h2 hex]]];
      try (split; [intros H; now contradiction H
                  | intros (a & b & H & _); discriminate H]).
    unfold hexstr_to_int.
    pose proof (hex_digit_val_dec_toupper h0) as T0.
    pose proof (hex_digit_val_dec_toupper h1) as T1.
    pose proof (hex_digit_val_dec_range (toupper h0)) as R0.
    pose proof (hex_digit_val_dec_range (toupper h1)) as R1.
    destruct (Z.eqb_spec (hex_digit_val_dec (toupper h0)) (-1)) as [E0|E0].
    + split; [intros H; now contradiction H|].
      intros (a & b & H & Ha & _). inversion H; subst a b.
      apply T0 in E0. congruence.
    + destruct (Z.eqb_spec (hex_digit_val_dec (toupper h1)) (-1)) as [E1|E1].
      * split; [intros H; now contradiction H|].
        intros (a & b & H & _ & Hb). inversion H; subst a b.
        apply T1 in E1. congruence.
      * split; [|intros _; lia]. intros _. exists h0, h1.
        split; [reflexivity|].
        destruct (is_hex_char h0) eqn:F0; [|exfalso; apply E0, T0; reflexivity].
        destruct (is_hex_char h1) eqn:F1; [|exfalso; apply E1, T1; reflexivity].
        split; reflexivity.
  - destruct (hexstr_to_int_range hex) as [H|[H0 H1]]; [left; exact H|right; lia].
Qed.

Lemma hex_digit_char (d : Z) :
  0 <= d < 16 ->
  chr (hex_digit d) mod 256 = chr (hex_digit d)
  /\ hex_digit_val_dec (toupper (chr (hex_digit d))) = d.
Proof.
  intros Hd. assert (E : d = Z.of_nat (Z.to_nat d)) by lia.
  assert (Hn : (Z.to_nat d < 16)%nat) by lia.
  set (n := Z.to_nat d) in *. clearbody n. subst d. clear Hd.
  do 16 (destruct n as [|n]; [vm_compute; split; reflexivity|]).
  exfalso. lia.
Qed.

Lemma hexstr_to_int_digits (b : Z) :
  is_byte b ->
  hexstr_to_int [chr (hex_digit (b / 16)) mod 256;
                 chr (hex_digit (b mod 16)) mod 256] = b.
Proof.
  intros [H0 H1].
  assert (Hq : 0 <= b / 16 < 16).
  { split; [apply Z.div_pos; lia | apply Z.div_lt_upper_bound; lia]. }
  assert (Hr : 0 <= b mod 16 < 16) by (apply Z.mod_pos_bound; lia).
  destruct (hex_digit_char _ Hq) as [Eq1 Eq2].
  destruct (hex_digit_char _ Hr) as [Er1 Er2].
  unfold hexstr_to_int. rewrite Eq1, Er1, Eq2, Er2.
  destruct (Z.eqb_spec (b / 16) (-1)); [lia|].
  destruct (Z.eqb_spec (b mod 16) (-1)); [lia|].
  pose proof (Z.div_mod b 16). lia.
Qed.

(** X3. The six bytes as [print_mem] prints them, [0xHH, 0xHH, ...], are a
    line the write command reads back: the six fields are accepted, whatever
    follows them is left in the buffer, and the values are the six bytes. *)
Theorem printed_code_reads_back (p : list Z) (tail : list Z) :
  List.length p = 6%nat ->
  Forall is_byte p ->
  exists hexstr,
    read_hexstr 6 0 (typed (join_bytes p) ++ tail) [] = Good hexstr tail
    /\ read_result hexstr = Some p.
Proof.
  intros Hlen Hb.
  destruct p as [|p0 [|p1 [|p2 [|p3 [|p4 [|p5 [|? ?]]]]]]]; try discriminate Hlen.
  repeat match goal with
         | H : Forall is_byte (_ :: _) |- _ => inversion_clear H
         end.
  exists (map (fun b => [chr (hex_digit (b / 16)) mod 256;
                         chr (hex_digit (b mod 16)) mod 256])
              [p0; p1; p2; p3; p4; p5]).
  cbn [join_bytes map]. rewrite !byte_text_digits by assumption.
  split.
  - cbn [typed list_ascii_of_string map String.append app].
    generalize (chr (hex_digit (p0 / 16))), (chr (hex_digit (p0 mod 16))),
               (chr (hex_digit (p1 / 16))), (chr (hex_digit (p1 mod 16))),
               (chr (hex_digit (p2 / 16))), (chr (hex_digit (p2 mod 16))),
               (chr (hex_digit (p3 / 16))), (chr (hex_digit (p3 mod 16))),
               (chr (hex_digit (p4 / 16))), (chr (hex_digit (p4 mod 16))),
               (chr (hex_digit (p5 / 16))), (chr (hex_digit (p5 mod 16))).
    intros. reflexivity.
  - cbn [read_result]. rewrite !hexstr_to_int_digits by assumption.
    unfold is_byte in *.
    repeat match goal with
           | |- context [?u =? -1] => destruct (Z.eqb_spec u (-1)); [lia|]
           end.
    reflexivity.
Qed.

Lemma printed_code_reads_back_witness :
  exists hexstr,
    read_hexstr 6 0 (typed (join_bytes [0x11; 0x22; 0x0A; 0xB0; 0x00; 0xFF])
                     ++ typed "fob") [] = Good hexstr (typed "fob")
    /\ read_result hexstr = Some [0x11; 0x22; 0x0A; 0xB0; 0x00; 0xFF].
Proof.
  apply (printed_code_reads_back [0x11; 0x22; 0x0A; 0xB0; 0x00; 0xFF] (typed "fob")).
  - reflexivity.
  - repeat constructor; unfold is_byte; lia.
Defined.

(** ** The command scan *)

Lemma command_of_toupper (c : Z) :
  (let u := toupper c in
   if u =? chr "R" then 0
   else if u =? chr "W" then 1
   else if u =? chr "C" then 2
   else if u =? chr "D" then 3
   else -1) = command_of c.
Proof.
  cbv zeta. rewrite toupper_value. unfold command_of. eval_chr.
  destruct (Z.leb_spec 97 c), (Z.leb_spec c 122); cbn [andb];
    repeat match goal with
           | |- context [?u =? ?v] => destruct (Z.eqb_spec u v); try lia
           end;
    reflexivity.
Qed.

(** X4. The command scan of [loop] keeps a command that is already pending,
    whatever arrives; with none pending, the first byte that is one of
    R, W, C, D, capital or small, decides, the bytes before it are skipped
    and the bytes after it are ignored; with no such byte there is no
    command. *)
Theorem read_command_first_letter (buf : list Z) (choice : Z) :
  read_command buf choice =
  if choice =? -1
  then match find is_command buf with
       | Some c => command_of c
       | None => -1
       end
  else choice.
Proof.
  revert choice. induction buf as [|c buf IH]; intros choice.
  - cbn [read_command find]. destruct (Z.eqb_spec choice (-1)); congruence.
  - cbn [read_command find]. destruct (Z.eqb_spec choice (-1)) as [->|Hne].
    + pose proof (command_of_toupper c) as Hc. cbv zeta in Hc.
      assert (Hstep : (if toupper c =? chr "R" then 0
                       else if toupper c =? chr "W" then 1
                       else if toupper c =? chr "C" then 2
                       else if toupper c =? chr "D" then 3
                       else -1) = command_of c) by exact Hc.
      cbv zeta. rewrite Hstep, IH. unfold is_command.
      destruct (Z.eqb_spec (command_of c) (-1)) as [E|E]; reflexivity.
    + rewrite IH. destruct (Z.eqb_spec choice (-1)); [contradiction | reflexivity].
Qed.

(** ** Blinking *)

Lemma blinkPin_cycles (LED cycles period : Z) :
  blinkPin LED cycles period =
  List.concat (repeat [DigitalWrite (LED mod 256) true;
                       Delay (Z.quot period 2 mod 2 ^ 32);
                       DigitalWrite (LED mod 256) false;
                       Delay (Z.quot period 2 mod 2 ^ 32)]
                      (Z.to_nat cycles)).
Proof.
  unfold blinkPin. rewrite for_loop_append. cbn [app].
  generalize 0. induction (Z.to_nat cycles) as [|n IH]; intros x0;
    [reflexivity|].
  rewrite range_S. cbn [flat_map repeat List.concat]. now rewrite IH.
Qed.

Lemma half_period_wait (period : Z) :
  is_int period ->
  (0 <= period -> Z.quot period 2 mod 2 ^ 32 = Z.quot period 2)
  /\ (period < -1 -> Z.quot period 2 mod 2 ^ 32 = 2 ^ 32 + Z.quot period 2).
Proof.
  intros [Hlo Hhi]. split; intros Hp.
  - rewrite Z.quot_div_nonneg by lia.
    apply Z.mod_small. split; [apply Z.div_pos; lia|].
    apply Z.div_lt_upper_bound; [lia|]. change (2 ^ 32) with 4294967296. lia.
  - replace period with (- (- period)) by lia.
    rewrite Z.quot_opp_l by lia. rewrite Z.quot_div_nonneg by lia.
    assert (Hq : 1 <= - period / 2 <= 16384).
    { split; [apply Z.div_le_lower_bound; lia|].
      apply Z.div_le_upper_bound; lia. }
    change (2 ^ 32) with 4294967296 in *.
    rewrite <- (Z.mod_add (- (- period / 2)) 1 4294967296) by lia.
    rewrite Z.mod_small by lia. lia.
Qed.

(** X5. [blinkPin], called with [int] arguments on a pin whose low byte is
    not the one-wire pin, switches that pin on and off [cycles] times and
    nothing else: nothing reaches the bus, and it waits [cycles] times twice
    the half period as [delay] takes it.  For a period that is not negative
    that is the halved period, the halving being integer division (a period
    of 5 gives 4 ms a cycle); a period below -1 has a negative half, which
    [delay] takes as the unsigned number 2^32 less that much.  With no
    cycles, or a negative count, it does nothing. *)
Theorem blinkPin_led_only (LED cycles period : Z) :
  is_int LED -> is_int cycles -> is_int period ->
  LED mod 256 <> IBUTTON ->
  bus_trace (blinkPin LED cycles period) = []
  /\ blinkPin LED cycles period
     = List.concat (repeat [DigitalWrite (LED mod 256) true;
                            Delay (Z.quot period 2 mod 2 ^ 32);
                            DigitalWrite (LED mod 256) false;
                            Delay (Z.quot period 2 mod 2 ^ 32)]
                           (Z.to_nat cycles))
  /\ (0 <= period ->
      delay_ms (blinkPin LED cycles period)
      = Z.max 0 cycles * (2 * Z.quot period 2))
  /\ (period < -1 ->
      delay_ms (blinkPin LED cycles period)
      = Z.max 0 cycles * (2 * (2 ^ 32 + Z.quot period 2)))
  /\ (cycles <= 0 -> blinkPin LED cycles period = []).
Proof.
  intros _ _ Hperiod Hled.
  assert (Hbus : (LED mod 256 =? IBUTTON) = false) by (apply Z.eqb_neq; exact Hled).
  assert (Hdelay : delay_ms (blinkPin LED cycles period)
                   = Z.max 0 cycles * (2 * (Z.quot period 2 mod 2 ^ 32))).
  { rewrite blinkPin_cycles.
    replace (Z.max 0 cycles) with (Z.of_nat (Z.to_nat cycles)) by lia.
    induction (Z.to_nat cycles) as [|n IH]; [reflexivity|].
    cbn [repeat List.concat app delay_ms]. rewrite IH. lia. }
  destruct (half_period_wait period Hperiod) as [Hpos Hneg].
  split; [|split; [apply blinkPin_cycles|split; [|split]]].
  - rewrite blinkPin_cycles.
    induction (Z.to_nat cycles) as [|n IH]; [reflexivity|].
    cbn [repeat List.concat app bus_trace filter on_bus]. rewrite Hbus. exact IH.
  - intros Hp. now rewrite Hdelay, (Hpos Hp).
  - intros Hp. now rewrite Hdelay, (Hneg Hp).
  - intros Hc. rewrite blinkPin_cycles.
    replace (Z.to_nat cycles) with O by lia. reflexivity.
Qed.

Lemma blinkPin_led_only_witness :
  bus_trace (blinkPin RED 5 5) = []
  /\ blinkPin RED 5 5
     = List.concat (repeat [DigitalWrite (RED mod 256) true;
                            Delay (Z.quot 5 2 mod 2 ^ 32);
                            DigitalWrite (RED mod 256) false;
                            Delay (Z.quot 5 2 mod 2 ^ 32)]
                           (Z.to_nat 5))
  /\ (0 <= 5 -> delay_ms (blinkPin RED 5 5) = Z.max 0 5 * (2 * Z.quot 5 2))
  /\ (5 < -1 -> delay_ms (blinkPin RED 5 5) = Z.max 0 5 * (2 * (2 ^ 32 + Z.quot 5 2)))
  /\ (5 <= 0 -> blinkPin RED 5 5 = []).
Proof.
  apply (blinkPin_led_only RED 5 5).
  - unfold is_int, RED. lia.
  - unfold is_int. lia.
  - unfold is_int. lia.
  - vm_compute. discriminate.
Defined.

(** ** The name *)

Lemma name_loop_read (b : Z) (n : nat) :
  forall x0 e buf a,
    EEPROM_read
      (fst (for_loop n x0
              (fun x '(e', b') =>
                 match b' with
                 | [] => (EEPROM_write e' (x + 8 + b) 0, [])
                 | c :: rest => (EEPROM_write e' (x + 8 + b) c, rest)
                 end)
              (e, buf))) a
    = if (x0 + 8 + b <=? a) && (a <? x0 + Z.of_nat n + 8 + b)
      then nth (Z.to_nat (a - (x0 + 8 + b))) buf 0 mod 256
      else EEPROM_read e a.
Proof.
  induction n as [|n IH]; intros x0 e buf a.
  - cbn [for_loop fst].
    destruct (Z.leb_spec (x0 + 8 + b) a), (Z.ltb_spec a (x0 + Z.of_nat 0 + 8 + b));
      cbn [andb]; try reflexivity; lia.
  - cbn [for_loop].
    destruct buf as [|c rest]; rewrite IH, EEPROM_read_write;
      destruct (Z.leb_spec (x0 + 1 + 8 + b) a), (Z.leb_spec (x0 + 8 + b) a),
               (Z.ltb_spec a (x0 + 1 + Z.of_nat n + 8 + b)),
               (Z.ltb_spec a (x0 + Z.of_nat (S n) + 8 + b)),
               (Z.eqb_spec a (x0 + 8 + b)); cbn [andb]; try reflexivity; try lia.
    + destruct (Z.to_nat (a - (x0 + 1 + 8 + b))), (Z.to_nat (a - (x0 + 8 + b)));
        reflexivity.
    + subst a. replace (x0 + 8 + b - (x0 + 8 + b)) with 0 by lia. reflexivity.
    + replace (Z.to_nat (a - (x0 + 8 + b)))
        with (S (Z.to_nat (a - (x0 + 1 + 8 + b)))) by lia.
      reflexivity.
    + subst a. replace (x0 + 8 + b - (x0 + 8 + b)) with 0 by lia. reflexivity.
Qed.

Lemma save_name_bytes (e : eeprom_t) (s : Z) (buf : list Z) :
  slot_bytes (save_name e s buf) s 8 8
  = map (fun k => nth k buf 0 mod 256) (seq 0 8).
Proof.
  unfold slot_bytes, save_name. apply map_ext_in. intros k Hk.
  apply in_seq in Hk. rewrite name_loop_read.
  destruct (Z.leb_spec (0 + 8 + Z.shiftl s 5) (Z.of_nat k + 8 + Z.shiftl s 5)),
           (Z.ltb_spec (Z.of_nat k + 8 + Z.shiftl s 5)
                       (0 + Z.of_nat 8 + 8 + Z.shiftl s 5));
    cbn [andb]; try lia.
  replace (Z.of_nat k + 8 + Z.shiftl s 5 - (0 + 8 + Z.shiftl s 5))
    with (Z.of_nat k) by lia.
  now rewrite Nat2Z.id.
Qed.

(** X6. The name loop stores, as label byte [k], byte [k] of what the serial
    buffer holds, for the first eight bytes, and NUL where the buffer has run
    out, so a shorter name is NUL-padded and a longer one cut at eight; the
    identifier of the slot and everything outside the label stay as they
    were. *)
Theorem save_name_label (e : eeprom_t) (s : Z) (buf : list Z) :
  slot_bytes (save_name e s buf) s 8 8
  = map (fun k => nth k buf 0 mod 256) (seq 0 8)
  /\ slot_bytes (save_name e s buf) s 0 8 = slot_bytes e s 0 8
  /\ (forall a, a < 8 + Z.shiftl s 5 \/ 16 + Z.shiftl s 5 <= a ->
                EEPROM_read (save_name e s buf) a = EEPROM_read e a).
Proof.
  split; [apply save_name_bytes|split].
  - apply slot_bytes_ext. intros x Hx. apply save_name_read. simpl in Hx. lia.
  - intros a Ha. now apply save_name_read.
Qed.

(** ** Runs that leave the EEPROM alone *)

Lemma program_eeprom (inp : inputs) (st : state) :
  eeprom (fst (program inp st)) = eeprom st.
Proof.
  unfold program.
  destruct (slot_is_full _ _); [destruct (search inp)|]; reflexivity.
Qed.

Lemma loop_idle (inp : inputs) (st : state) :
  serial_rx inp = [] -> buttons inp READ = true -> buttons inp WRITE = true ->
  loop inp st = (set_pressed st false false, [Delay 1]).
Proof.
  intros Hrx Hr Hw. unfold loop, loop_buttons, digitalRead.
  rewrite Hrx, Hr, Hw. reflexivity.
Qed.

(** X7. A press of the write button alone, whatever the slot holds and
    whether or not a device answers, a console command other than write and
    clear (read, dump, or bytes that are no command), and a poll with no
    button down never change a byte of the EEPROM. *)
Theorem looking_keeps_eeprom (inp : inputs) (st : state) :
  looks_only inp st -> eeprom (fst (loop inp st)) = eeprom st.
Proof.
  intros [Hw|[(Hrx & H1 & H2)|(Hrx & Hr & Hw)]].
  - rewrite (loop_write_button _ _ Hw).
    exact (program_eeprom inp (set_pressed st false true)).
  - rewrite (loop_serial_branch _ _ Hrx). unfold loop_serial.
    set (c := read_command (serial_rx inp) (serial_choice st)) in *.
    cbn [serial_choice set_serial_choice].
    destruct (Z.eqb_spec c 0); [reflexivity|].
    destruct (Z.eqb_spec c 1); [contradiction|].
    destruct (Z.eqb_spec c 2); [contradiction|].
    destruct (Z.eqb_spec c 3); reflexivity.
  - now rewrite (loop_idle _ _ Hrx Hr Hw).
Qed.

Lemma looking_keeps_eeprom_witness :
  eeprom (fst (loop (press WRITE (selector_at 5) (Some id5) 0)
                    (power_on (eeprom_with 5 id5))))
  = eeprom (power_on (eeprom_with 5 id5)).
Proof.
  apply (looking_keeps_eeprom (press WRITE (selector_at 5) (Some id5) 0)
                              (power_on (eeprom_with 5 id5))).
  left. repeat split.
Defined.

(** X8. When no device answers the search, a press of the read button alone
    stores nothing, and a press of the write button alone on a slot that is
    not empty sends nothing to the device: the search and the reset of the
    search are all that reaches the bus, the red LED is on for 1 ms, and
    there is no wait for the button, so the next poll tries again. *)
Theorem no_device_retries (inp : inputs) (st : state) :
  search inp = None ->
  read_button_only inp
  \/ (write_button_only inp
      /\ slot_is_full (eeprom st) (read_selector (selector inp)) = true) ->
  eeprom (fst (loop inp st)) = eeprom st
  /\ snd (loop inp st)
     = [OwSearch false; DigitalWrite RED true; OwResetSearch; Delay 1;
        DigitalWrite RED false].
Proof.
  intros Hs [Hr|[Hw Hfull]].
  - rewrite (loop_read_button _ _ Hr). unfold capture. rewrite Hs.
    split; reflexivity.
  - rewrite (loop_write_button _ _ Hw). unfold program, update_slot.
    cbn [eeprom slot set_slot set_code set_pressed]. rewrite Hfull, Hs.
    split; reflexivity.
Qed.

Lemma no_device_retries_witness :
  eeprom (fst (loop (press READ (selector_at 5) None 3)
                    (power_on (eeprom_with 5 id5))))
  = eeprom (power_on (eeprom_with 5 id5))
  /\ snd (loop (press READ (selector_at 5) None 3) (power_on (eeprom_with 5 id5)))
     = [OwSearch false; DigitalWrite RED true; OwResetSearch; Delay 1;
        DigitalWrite RED false].
Proof.
  apply (no_device_retries (press READ (selector_at 5) None 3)
                           (power_on (eeprom_with 5 id5))).
  - reflexivity.
  - left. repeat split.
Defined.

(** ** The write command on a bad line *)

(** X9. A write command whose code line is out of form, or has a field that
    is not two hex digits, changes no byte of the EEPROM: the controller
    prints one complaint, flushes the port and restarts, so the globals are
    as after power-on and the welcome text of [loop] is not printed. *)
Theorem malformed_code_restarts (inp : inputs) (st : state) :
  serial_rx inp <> [] ->
  read_command (serial_rx inp) (serial_choice st) = 1 ->
  serial_code inp <> [] ->
  malformed_code (serial_code inp) ->
  fst (loop inp st) = power_on (eeprom st)
  /\ exists msg,
       snd (loop inp st)
       = [Delay 100;
          print "Waiting for code to program slot ";
          print_HEX (read_selector (selector inp));
          println " with...";
          println "Format: 0x01, 0x02, 0x03, 0x04, 0x05, 0x06";
          Delay 100;
          println (msg ++ LF); SerialFlush; McuReset].
Proof.
  intros Hrx Hcmd Hcode Hbad.
  rewrite (loop_serial_branch _ _ Hrx), (loop_serial_write _ _ Hcmd).
  unfold serial_write_slot, malformed_code in *.
  destruct (serial_code inp) as [|c0 code_line]; [contradiction|].
  destruct (read_hexstr 6 0 (c0 :: code_line) []) as [msg|hexstr rest].
  - split; [reflexivity|]. exists msg. reflexivity.
  - rewrite Hbad. split; [reflexivity|]. eexists. reflexivity.
Qed.

Lemma malformed_code_restarts_witness :
  let inp := console_write (typed "W") (typed "0x11, 0x22, 0x3G, 0x44, 0x55, 0x66")
                           (typed "home") (selector_at 5) in
  let st := power_on (eeprom_with 5 id5) in
  fst (loop inp st) = power_on (eeprom st)
  /\ exists msg,
       snd (loop inp st)
       = [Delay 100;
          print "Waiting for code to program slot ";
          print_HEX (read_selector (selector inp));
          println " with...";
          println "Format: 0x01, 0x02, 0x03, 0x04, 0x05, 0x06";
          Delay 100;
          println (msg ++ LF); SerialFlush; McuReset].
Proof.
  intros inp st. apply (malformed_code_restarts inp st).
  - discriminate.
  - reflexivity.
  - discriminate.
  - vm_compute. reflexivity.
Defined.

(** ** The read command *)

Lemma slot_bytes_middle (e : eeprom_t) (s : Z) :
  slot_bytes e s 1 6 = firstn 6 (skipn 1 (slot_bytes e s 0 8)).
Proof. reflexivity. Qed.

Lemma serial_text_read_slot (inp : inputs) (st : state) :
  serial_text (snd (serial_read_slot inp st))
  = read_answer (eeprom st) (read_selector (selector inp)).
Proof.
  unfold serial_read_slot, read_answer, update_slot.
  cbn [snd eeprom slot set_slot set_code].
  pose proof (serial_text_mem (eeprom st) (read_selector (selector inp))) as Hm.
  unfold payload_text in Hm.
  destruct (slot_is_full (eeprom st) (read_selector (selector inp))).
  - rewrite !serial_text_app, serial_text_name, Hm.
    cbn [serial_text print println print_HEX].
    rewrite !string_app_assoc. reflexivity.
  - cbn [serial_text print println print_HEX].
    rewrite !string_app_assoc. reflexivity.
Qed.

Lemma loop_serial_read (inp : inputs) (st : state) :
  read_command (serial_rx inp) (serial_choice st) = 0 ->
  loop_serial inp st =
  (fst (serial_read_slot inp (set_serial_choice st 0)),
   Delay 100 :: snd (serial_read_slot inp (set_serial_choice st 0)) ++ printWelcome).
Proof. intros H. unfold loop_serial. rewrite H. reflexivity. Qed.

Lemma loop_read_text (inp : inputs) (st : state) :
  serial_rx inp <> [] ->
  read_command (serial_rx inp) (serial_choice st) = 0 ->
  serial_text (snd (loop inp st))
  = (read_answer (eeprom st) (read_selector (selector inp))
     ++ serial_text printWelcome)%string.
Proof.
  intros Hrx Hcmd.
  rewrite (loop_serial_branch _ _ Hrx), (loop_serial_read _ _ Hcmd).
  cbn [snd serial_text]. rewrite serial_text_app.
  now rewrite (serial_text_read_slot inp (set_serial_choice st 0)).
Qed.

(** X10. The read command answers for the slot the selector points at: for a
    slot that is not empty, the slot number, the label (or [<UNNAMED>]) and
    bytes 1 to 6 of the identifier in the form [0xHH, 0xHH, ...]; for an
    empty slot, the complaint that no code is stored.  It changes no byte of
    the EEPROM and leaves no command pending. *)
Theorem console_read_answer (inp : inputs) (st : state) :
  serial_rx inp <> [] ->
  read_command (serial_rx inp) (serial_choice st) = 0 ->
  serial_text (snd (loop inp st))
  = (read_answer (eeprom st) (read_selector (selector inp))
     ++ serial_text printWelcome)%string
  /\ eeprom (fst (loop inp st)) = eeprom st
  /\ serial_choice (fst (loop inp st)) = -1.
Proof.
  intros Hrx Hcmd. split; [now apply loop_read_text|].
  rewrite (loop_serial_branch _ _ Hrx), (loop_serial_read _ _ Hcmd).
  split; reflexivity.
Qed.

Lemma console_read_answer_witness :
  let inp := console (typed "r") (selector_at 5) in
  let st := power_on (eeprom_with 5 id5) in
  serial_text (snd (loop inp st))
  = (read_answer (eeprom st) (read_selector (selector inp))
     ++ serial_text printWelcome)%string
  /\ eeprom (fst (loop inp st)) = eeprom st
  /\ serial_choice (fst (loop inp st)) = -1.
Proof.
  intros inp st. apply (console_read_answer inp st).
  - discriminate.
  - reflexivity.
Defined.

(** ** Write, then read *)

Lemma written_identifier (e : eeprom_t) (s : Z) (payload buf : list Z) :
  List.length payload = 6%nat ->
  Forall is_byte payload ->
  slot_bytes (save_name (save_code e s payload) s buf) s 0 8
  = 0x0C :: payload ++ [crc8 (0x0C :: payload)].
Proof.
  intros Hlen Hb. rewrite <- (save_code_bytes e s payload Hlen Hb).
  apply slot_bytes_ext. intros x Hx. apply save_name_read. simpl in Hx. lia.
Qed.

Lemma loop_write_state
    (inp : inputs) (st : state) (hexstr : list (list Z)) (rest payload : list Z) :
  serial_rx inp <> [] ->
  read_command (serial_rx inp) (serial_choice st) = 1 ->
  read_hexstr 6 0 (serial_code inp) [] = Good hexstr rest ->
  read_result hexstr = Some payload ->
  rest ++ serial_name inp <> [] ->
  fst (loop inp st)
  = set_serial_choice
      (set_eeprom (update_slot (selector inp) (set_serial_choice st 1))
         (save_name (save_code (eeprom st) (read_selector (selector inp)) payload)
                    (read_selector (selector inp)) (rest ++ serial_name inp)))
      (-1).
Proof.
  intros Hrx Hcmd Hform Hres Hname.
  rewrite (loop_serial_branch _ _ Hrx), (loop_serial_write _ _ Hcmd).
  unfold serial_write_slot.
  destruct (serial_code inp) as [|c0 code_line] eqn:Hcode; [discriminate Hform|].
  rewrite Hform, Hres.
  destruct (rest ++ serial_name inp) as [|n0 name]; [contradiction|]. reflexivity.
Qed.

(** X11. What the write command stores, the read command shows: after a
    write of six well-formed fields that gets at least one byte for the name,
    a read with the selector on the same slot answers with the six bytes in
    the order typed, in the form [0xHH, 0xHH, ...], and with the name, which
    is the first eight bytes left in the buffer after the code (NUL-padded;
    [<UNNAMED>] when it starts with NUL). *)
Theorem console_write_then_read
    (inpW inpR : inputs) (st : state)
    (hexstr : list (list Z)) (rest payload : list Z) :
  serial_rx inpW <> [] ->
  read_command (serial_rx inpW) (serial_choice st) = 1 ->
  read_hexstr 6 0 (serial_code inpW) [] = Good hexstr rest ->
  read_result hexstr = Some payload ->
  rest ++ serial_name inpW <> [] ->
  serial_rx inpR <> [] ->
  read_command (serial_rx inpR) (-1) = 0 ->
  read_selector (selector inpR) = read_selector (selector inpW) ->
  serial_text (snd (loop inpR (fst (loop inpW st))))
  = ("Reading code from device slot "
     ++ printNumber_hex 8 (read_selector (selector inpW)) "" ++ "..." ++ CRLF
     ++ "[SUCCESS] " ++ printNumber_hex 8 (read_selector (selector inpW)) ""
     ++ " : "
     ++ shown_name (map (fun k => nth k (rest ++ serial_name inpW) 0 mod 256)
                        (seq 0 8))
     ++ " : " ++ join_bytes payload ++ LF ++ CRLF
     ++ serial_text printWelcome)%string.
Proof.
  intros HrxW HcmdW Hform Hres Hname HrxR HcmdR Hsel.
  destruct (read_result_bytes hexstr payload Hres) as [Hlen Hb].
  rewrite (read_hexstr_length _ _ _ _ _ _ Hform) in Hlen.
  cbn [List.length Nat.add] in Hlen.
  rewrite (loop_write_state _ _ _ _ _ HrxW HcmdW Hform Hres Hname).
  rewrite loop_read_text by assumption.
  cbn [eeprom set_serial_choice set_eeprom]. rewrite Hsel.
  set (s := read_selector (selector inpW)).
  set (e3 := save_name (save_code (eeprom st) s payload) s (rest ++ serial_name inpW)).
  pose proof (written_identifier (eeprom st) s payload (rest ++ serial_name inpW)
                Hlen Hb) as Hid.
  fold e3 in Hid.
  assert (Hfull : slot_is_full e3 s = true).
  { destruct (slot_is_full e3 s) eqn:E; [reflexivity|].
    apply slot_is_full_bytes in E. rewrite Hid in E. discriminate E. }
  assert (Hmid : slot_bytes e3 s 1 6 = payload).
  { rewrite slot_bytes_middle, Hid.
    destruct payload as [|p0 [|p1 [|p2 [|p3 [|p4 [|p5 [|? ?]]]]]]];
      try discriminate Hlen.
    reflexivity. }
  unfold read_answer, label_text, shown_name. rewrite Hfull, Hmid.
  unfold e3. rewrite save_name_bytes.
  rewrite !string_app_assoc. reflexivity.
Qed.

Lemma console_write_then_read_witness :
  let inpW := console_write (typed "w") (typed "0x11, 0x22, 0x33, 0x44, 0x55, 0xaB")
                            (typed "home") (selector_at 5) in
  let inpR := console (typed "r") (selector_at 5) in
  serial_text (snd (loop inpR (fst (loop inpW (power_on (fun _ => 255))))))
  = ("Reading code from device slot "
     ++ printNumber_hex 8 (read_selector (selector inpW)) "" ++ "..." ++ CRLF
     ++ "[SUCCESS] " ++ printNumber_hex 8 (read_selector (selector inpW)) ""
     ++ " : "
     ++ shown_name (map (fun k => nth k ([] ++ serial_name inpW) 0 mod 256)
                        (seq 0 8))
     ++ " : " ++ join_bytes [0x11; 0x22; 0x33; 0x44; 0x55; 0xAB] ++ LF ++ CRLF
     ++ serial_text printWelcome)%string.
Proof.
  intros inpW inpR.
  apply (console_write_then_read inpW inpR (power_on (fun _ => 255))
           [typed "11"; typed "22"; typed "33"; typed "44"; typed "55"; typed "aB"]
           [] [0x11; 0x22; 0x33; 0x44; 0x55; 0xAB]).
  - discriminate.
  - reflexivity.
  - reflexivity.
  - reflexivity.
  - discriminate.
  - discriminate.
  - reflexivity.
  - reflexivity.
Defined.

(** ** Capture, then program *)

Lemma program_trace (inp : inputs) (st : state) (rom : list Z) :
  slot_is_full (eeprom st) (read_selector (selector inp)) = true ->
  search inp = Some rom ->
  snd (program inp st)
  = programming_trace (slot_bytes (eeprom st) (read_selector (selector inp)) 0 8)
                      (held inp).
Proof.
  intros Hfull Hs. unfold program, update_slot, programming_trace.
  cbn [eeprom slot set_slot set_code]. rewrite Hfull, Hs.
  cbn [snd code set_addr set_code]. rewrite for_loop_append. reflexivity.
Qed.

Lemma loop_capture_state (inp : inputs) (st : state) (X : list Z) :
  read_button_only inp ->
  search inp = Some X ->
  eeprom (fst (loop inp st))
  = store_addr (eeprom st) (read_selector (selector inp)) X.
Proof.
  intros Hr Hs. rewrite (loop_read_button _ _ Hr). unfold capture. rewrite Hs.
  reflexivity.
Qed.

(** X12. The clone.  A capture of the identifier [X], not all zero, followed
    by a press of the write button with the selector on the same slot and a
    device found, sends to that device the programming sequence with exactly
    the eight bytes of [X], in order. *)
Theorem capture_then_program
    (inpC inpP : inputs) (st : state) (X rom : list Z) :
  read_button_only inpC ->
  search inpC = Some X ->
  List.length X = 8%nat ->
  Forall is_byte X ->
  X <> repeat 0 8 ->
  write_button_only inpP ->
  search inpP = Some rom ->
  read_selector (selector inpP) = read_selector (selector inpC) ->
  snd (loop inpP (fst (loop inpC st))) = programming_trace X (held inpP).
Proof.
  intros Hr HsC Hlen HX Hnz Hw HsP Hsel.
  rewrite (loop_write_button _ _ Hw).
  assert (He : eeprom (set_pressed (fst (loop inpC st)) false true)
               = store_addr (eeprom st) (read_selector (selector inpC)) X).
  { cbn [eeprom set_pressed]. now apply loop_capture_state. }
  assert (Hid : slot_bytes (eeprom (set_pressed (fst (loop inpC st)) false true))
                           (read_selector (selector inpP)) 0 8 = X).
  { rewrite He, Hsel, store_addr_bytes, <- Hlen. now apply map_nth_bytes. }
  rewrite (program_trace inpP _ rom); [now rewrite Hid| |exact HsP].
  destruct (slot_is_full _ _) eqn:E; [reflexivity|].
  apply slot_is_full_bytes in E. rewrite Hid in E. contradiction.
Qed.

Lemma capture_then_program_witness :
  snd (loop (press WRITE (selector_at 9) (Some id_01) 2)
            (fst (loop (press READ (selector_at 9) (Some id_01) 1)
                       (power_on (fun _ => 0)))))
  = programming_trace id_01 (held (press WRITE (selector_at 9) (Some id_01) 2)).
Proof.
  apply (capture_then_program (press READ (selector_at 9) (Some id_01) 1)
                              (press WRITE (selector_at 9) (Some id_01) 2)
                              (power_on (fun _ => 0)) id_01 id_01).
  - repeat split.
  - reflexivity.
  - reflexivity.
  - repeat constructor; unfold is_byte; lia.
  - discriminate.
  - repeat split.
  - reflexivity.
  - reflexivity.
Defined.

(** ** The two-button hold *)

(** X13. When a button is found released at one of the three samples of the
    two-button hold, the run ends there: no byte of the EEPROM is changed,
    nothing reaches the bus, and the whole output is the red pulses (the red
    LED on for 500 ms and off for 500 ms) up to the first sample that finds a
    button released, one to three of them. *)
Theorem chord_released_changes_nothing (inp : inputs) (st : state) :
  both_buttons inp ->
  released_early inp ->
  eeprom (fst (loop inp st)) = eeprom st
  /\ bus_trace (snd (loop inp st)) = []
  /\ 1000 <= delay_ms (snd (loop inp st)) <= 3000
  /\ exists n,
       (1 <= n <= 3)%nat
       /\ snd (loop inp st) = List.concat (repeat [DigitalWrite RED true; Delay 500; DigitalWrite RED false; Delay 500] n)
       /\ (chord inp (Z.of_nat n - 1) READ = true
           \/ chord inp (Z.of_nat n - 1) WRITE = true)
       /\ (forall y, 0 <= y < Z.of_nat n - 1 ->
                     chord inp y READ = false /\ chord inp y WRITE = false).
Proof.
  intros (Hrx & Hr & Hw) (x & Hx & Hrel).
  unfold loop, loop_buttons, digitalRead. rewrite Hrx, Hr, Hw.
  cbn [Z.b2z Z.eqb set_pressed read_pressed write_pressed andb chord_hold].
  unfold digitalRead. change (0 + 1 + 1) with 2. change (0 + 1) with 1.
  destruct (chord inp 0 READ) eqn:R0, (chord inp 0 WRITE) eqn:W0;
    cbn [Z.b2z Z.eqb negb orb set_pressed read_pressed write_pressed].
  1-3: chord_stops_after 1%nat.
  destruct (chord inp 1 READ) eqn:R1, (chord inp 1 WRITE) eqn:W1;
    cbn [Z.b2z Z.eqb negb orb set_pressed read_pressed write_pressed].
  1-3: chord_stops_after 2%nat.
  destruct (chord inp 2 READ) eqn:R2, (chord inp 2 WRITE) eqn:W2;
    cbn [Z.b2z Z.eqb negb orb set_pressed read_pressed write_pressed].
  1-3: chord_stops_after 3%nat.
  exfalso. assert (Hcase : x = 0 \/ x = 1 \/ x = 2) by lia.
  destruct Hcase as [->|[->| ->]]; destruct Hrel; congruence.
Qed.

Lemma chord_released_changes_nothing_witness :
  let inp := mkInputs [] [] [] O both_down
               (fun x => if x =? 1 then (fun p => negb (p =? READ)) else both_down)
               (selector_at 5) (Some id_01) O in
  let st := power_on (eeprom_with 0 id5) in
  eeprom (fst (loop inp st)) = eeprom st
  /\ bus_trace (snd (loop inp st)) = []
  /\ 1000 <= delay_ms (snd (loop inp st)) <= 3000
  /\ exists n,
       (1 <= n <= 3)%nat
       /\ snd (loop inp st) = List.concat (repeat [DigitalWrite RED true; Delay 500; DigitalWrite RED false; Delay 500] n)
       /\ (chord inp (Z.of_nat n - 1) READ = true
           \/ chord inp (Z.of_nat n - 1) WRITE = true)
       /\ (forall y, 0 <= y < Z.of_nat n - 1 ->
                     chord inp y READ = false /\ chord inp y WRITE = false).
Proof.
  intros inp st. apply (chord_released_changes_nothing inp st).
  - repeat split.
  - exists 1. split; [lia|]. right. reflexivity.
Defined.

Lemma chord_hold_kept (inp : inputs) (st : state) :
  held_through inp ->
  chord_hold 3 0 inp st []
  = (true, set_pressed st true true,
     blinkPin RED 1 1000 ++ blinkPin RED 1 1000 ++ blinkPin RED 1 1000).
Proof.
  intros H. destruct (H 0) as [R0 W0]; [lia|]. destruct (H 1) as [R1 W1]; [lia|].
  destruct (H 2) as [R2 W2]; [lia|].
  cbn [chord_hold]. unfold digitalRead.
  change (0 + 1 + 1) with 2. change (0 + 1) with 1.
  rewrite R0, W0, R1, W1, R2, W2. reflexivity.
Qed.

(** X14. A two-button hold kept through the three pulses, with a device on
    the reader, does not stop at the erase: the read button is still down, so
    the same run goes on to capture, and it ends with the identifier of the
    device in the slot the selector points at, after three red pulses, three
    green blinks, the search and five green blinks. *)
Theorem chord_with_device_captures (inp : inputs) (st : state) (X : list Z) :
  both_buttons inp ->
  held_through inp ->
  search inp = Some X ->
  List.length X = 8%nat ->
  Forall is_byte X ->
  slot_bytes (eeprom (fst (loop inp st))) (read_selector (selector inp)) 0 8 = X
  /\ eeprom (fst (loop inp st))
     = store_addr (clear_slot (eeprom st) (slot st)) (read_selector (selector inp)) X
  /\ snd (loop inp st)
     = blinkPin RED 3 1000 ++ blinkPin GREEN 3 250
       ++ [OwSearch true] ++ blinkPin GREEN 5 250 ++ repeat (Delay 1) (held inp).
Proof.
  intros (Hrx & Hr & Hw) Hheld Hs Hlen HX.
  assert (Hloop : loop inp st
                  = (fst (capture inp (set_eeprom (set_pressed st true true)
                                         (clear_slot (eeprom st) (slot st)))),
                     blinkPin RED 3 1000 ++ blinkPin GREEN 3 250
                     ++ snd (capture inp (set_eeprom (set_pressed st true true)
                                            (clear_slot (eeprom st) (slot st)))))).
  { unfold loop, loop_buttons, digitalRead. rewrite Hrx, Hr, Hw.
    cbn [Z.b2z Z.eqb set_pressed read_pressed write_pressed andb].
    rewrite (chord_hold_kept inp _ Hheld).
    cbn [eeprom slot set_pressed]. unfold dispatch.
    cbn [read_pressed set_eeprom].
    destruct (capture inp _) as [st3 tr3] eqn:E.
    cbn [fst snd]. reflexivity. }
  rewrite Hloop. unfold capture. rewrite Hs.
  cbn [fst snd eeprom slot addr set_slot set_code set_pressed set_addr set_eeprom
       update_slot].
  split; [|split; reflexivity].
  rewrite store_addr_bytes, <- Hlen. now apply map_nth_bytes.
Qed.

Lemma chord_with_device_captures_witness :
  let inp := hold_both (selector_at 5) (Some id_01) in
  let st := power_on (eeprom_with 0 id5) in
  slot_bytes (eeprom (fst (loop inp st))) (read_selector (selector inp)) 0 8 = id_01
  /\ eeprom (fst (loop inp st))
     = store_addr (clear_slot (eeprom st) (slot st)) (read_selector (selector inp))
                  id_01
  /\ snd (loop inp st)
     = blinkPin RED 3 1000 ++ blinkPin GREEN 3 250
       ++ [OwSearch true] ++ blinkPin GREEN 5 250 ++ repeat (Delay 1) (held inp).
Proof.
  intros inp st. apply (chord_with_device_captures inp st id_01).
  - repeat split.
  - intros x Hx. split; reflexivity.
  - reflexivity.
  - reflexivity.
  - repeat constructor; unfold is_byte; lia.
Defined.

(** ** What [writeByte] sends *)

Lemma bit_slot_inj (x y : bool) (l l' : list event) :
  (if x then hold_low_60us else brief_low_pulse) ++ l
  = (if y then hold_low_60us else brief_low_pulse) ++ l' ->
  x = y /\ l = l'.
Proof.
  destruct x, y; cbn [hold_low_60us brief_low_pulse app]; intros E.
  - inversion E. split; reflexivity.
  - discriminate E.
  - discriminate E.
  - inversion E. split; reflexivity.
Qed.

Lemma low_bits_mod (a b : Z) :
  (forall i, 0 <= i < 8 -> Z.testbit a i = Z.testbit b i) <->
  a mod 256 = b mod 256.
Proof.
  change 256 with (2 ^ 8). split.
  - intros H. apply Z.bits_inj'. intros n Hn.
    destruct (Z.ltb_spec n 8).
    + rewrite !Z.mod_pow2_bits_low by lia. apply H. lia.
    + rewrite !Z.mod_pow2_bits_high by lia. reflexivity.
  - intros H i Hi.
    rewrite <- (Z.mod_pow2_bits_low a 8 i), <- (Z.mod_pow2_bits_low b 8 i) by lia.
    now rewrite H.
Qed.

(** X15. [writeByte] sends the low eight bits of its argument and nothing
    else of it, and sends different bytes differently: two arguments give
    the same pin activity exactly when they agree modulo 256. *)
Theorem writeByte_same_iff (a b : Z) :
  writeByte a = writeByte b <-> a mod 256 = b mod 256.
Proof.
  rewrite <- low_bits_mod. unfold writeByte. rewrite !writeByte_loop_slots.
  change (range 0 8) with [0; 1; 2; 3; 4; 5; 6; 7]. cbn [flat_map]. split.
  - intros E.
    repeat match type of E with
           | _ ++ _ = _ ++ _ =>
               apply bit_slot_inj in E;
               let H := fresh "B" in destruct E as [H E]
           end.
    intros i Hi.
    do 8 (match goal with
          | B : Z.testbit a ?k = Z.testbit b ?k |- _ =>
              destruct (Z.eq_dec i k) as [->|?]; [exact B|]; clear B
          end).
    exfalso. lia.
  - intros H.
    rewrite (H 0), (H 1), (H 2), (H 3), (H 4), (H 5), (H 6), (H 7) by lia.
    reflexivity.
Qed.

(** ** One record at a time *)

Lemma save_code_read (e : eeprom_t) (s : Z) (result : list Z) (a : Z) :
  a < Z.shiftl s 5 \/ Z.shiftl s 5 + 8 <= a ->
  EEPROM_read (save_code e s result) a = EEPROM_read e a.
Proof.
  intros Ha. unfold save_code.
  rewrite (for_loop_code
             (fun e' x => EEPROM_write e' (x + Z.shiftl s 5 + 1)
                                       (nth (Z.to_nat x) result 0 mod 256))
             (fun x => nth (Z.to_nat x) result 0 mod 256)).
  rewrite EEPROM_read_write.
  rewrite (for_loop_write_at (fun x => x + Z.shiftl s 5 + 1)
             (fun x => nth (Z.to_nat x) result 0 mod 256) (Z.shiftl s 5 + 1))
    by (intros; lia).
  rewrite EEPROM_read_write. cbn [Z.of_nat Pos.of_succ_nat Pos.succ].
  decide_addresses; reflexivity.
Qed.

(** X16. Clearing a slot, capturing into it, and writing its code and its
    name from the console touch only the first sixteen bytes of that slot's
    region: every byte outside them, so the whole of every other slot and the
    sixteen spare bytes of the slot itself, reads as before. *)
Theorem slot_writes_stay_in_record
    (e : eeprom_t) (i a : Z) (rom result buf : list Z) :
  a < 32 * i \/ 32 * i + 16 <= a ->
  EEPROM_read (clear_slot e i) a = EEPROM_read e a
  /\ EEPROM_read (store_addr e i rom) a = EEPROM_read e a
  /\ EEPROM_read (save_code e i result) a = EEPROM_read e a
  /\ EEPROM_read (save_name e i buf) a = EEPROM_read e a.
Proof.
  intros Ha. pose proof (shiftl_5 i) as Hs. repeat split.
  - rewrite clear_slot_read. decide_addresses; reflexivity.
  - rewrite store_addr_read. decide_addresses; reflexivity.
  - apply save_code_read. lia.
  - apply save_name_read. lia.
Qed.

Lemma slot_writes_stay_in_record_witness :
  EEPROM_read (clear_slot (eeprom_with 6 id5) 5) 192
  = EEPROM_read (eeprom_with 6 id5) 192
  /\ EEPROM_read (store_addr (eeprom_with 6 id5) 5 id_01) 192
     = EEPROM_read (eeprom_with 6 id5) 192
  /\ EEPROM_read (save_code (eeprom_with 6 id5) 5 [1; 2; 3; 4; 5; 6]) 192
     = EEPROM_read (eeprom_with 6 id5) 192
  /\ EEPROM_read (save_name (eeprom_with 6 id5) 5 (typed "home")) 192
     = EEPROM_read (eeprom_with 6 id5) 192.
Proof.
  apply (slot_writes_stay_in_record (eeprom_with 6 id5) 5 192 id_01
           [1; 2; 3; 4; 5; 6] (typed "home")).
  right. lia.
Defined.

(** ** Clear, then read or program *)

Lemma clear_slot_empty (e : eeprom_t) (s : Z) :
  slot_is_full (clear_slot e s) s = false.
Proof.
  apply slot_is_full_bytes.
  change (repeat 0 8) with (firstn 8 (repeat 0 16)).
  rewrite <- (clear_slot_bytes e s). reflexivity.
Qed.

Lemma loop_clear_state (inp : inputs) (st : state) :
  serial_rx inp <> [] ->
  read_command (serial_rx inp) (serial_choice st) = 2 ->
  fst (loop inp st)
  = set_serial_choice
      (set_eeprom (update_slot (selector inp) (set_serial_choice st 2))
         (clear_slot (eeprom st) (read_selector (selector inp))))
      (-1).
Proof.
  intros Hrx Hcmd. rewrite (loop_serial_branch _ _ Hrx).
  unfold loop_serial. rewrite Hcmd. reflexivity.
Qed.

(** X17. After the clear command, with the selector on the same slot, the
    read command answers that no code is stored, and a press of the write
    button is refused with the five red blinks (125 ms on, 125 ms off),
    with nothing sent on the bus. *)
Theorem console_clear_then_use (inpC inpR inpP : inputs) (st : state) :
  serial_rx inpC <> [] ->
  read_command (serial_rx inpC) (serial_choice st) = 2 ->
  serial_rx inpR <> [] ->
  read_command (serial_rx inpR) (-1) = 0 ->
  read_selector (selector inpR) = read_selector (selector inpC) ->
  write_button_only inpP ->
  read_selector (selector inpP) = read_selector (selector inpC) ->
  serial_text (snd (loop inpR (fst (loop inpC st))))
  = ("[ERROR] No code stored in slot "
     ++ printNumber_hex 8 (read_selector (selector inpC)) "" ++ " yet."
     ++ LF ++ CRLF ++ serial_text printWelcome)%string
  /\ snd (loop inpP (fst (loop inpC st)))
     = [DigitalWrite RED true; Delay 125; DigitalWrite RED false; Delay 125;
       DigitalWrite RED true; Delay 125; DigitalWrite RED false; Delay 125;
       DigitalWrite RED true; Delay 125; DigitalWrite RED false; Delay 125;
       DigitalWrite RED true; Delay 125; DigitalWrite RED false; Delay 125;
       DigitalWrite RED true; Delay 125; DigitalWrite RED false; Delay 125]
       ++ repeat (Delay 1) (held inpP)
  /\ bus_trace (snd (loop inpP (fst (loop inpC st)))) = [].
Proof.
  intros HrxC HcmdC HrxR HcmdR HselR Hw HselP.
  rewrite (loop_clear_state _ _ HrxC HcmdC).
  assert (HP : snd (loop inpP
                      (set_serial_choice
                         (set_eeprom
                            (update_slot (selector inpC) (set_serial_choice st 2))
                            (clear_slot (eeprom st) (read_selector (selector inpC))))
                         (-1)))
               = [DigitalWrite RED true; Delay 125; DigitalWrite RED false; Delay 125;
       DigitalWrite RED true; Delay 125; DigitalWrite RED false; Delay 125;
       DigitalWrite RED true; Delay 125; DigitalWrite RED false; Delay 125;
       DigitalWrite RED true; Delay 125; DigitalWrite RED false; Delay 125;
       DigitalWrite RED true; Delay 125; DigitalWrite RED false; Delay 125]
       ++ repeat (Delay 1) (held inpP)).
  { rewrite (loop_write_button _ _ Hw). unfold program, update_slot.
    cbn [eeprom slot set_slot set_code set_pressed set_serial_choice set_eeprom].
    rewrite HselP, clear_slot_empty. reflexivity. }
  split; [|split; [exact HP|]].
  - rewrite loop_read_text by assumption.
    cbn [eeprom set_serial_choice set_eeprom]. rewrite HselR.
    unfold read_answer. rewrite clear_slot_empty.
    rewrite !string_app_assoc. reflexivity.
  - rewrite HP, bus_trace_app, bus_trace_waits. reflexivity.
Qed.

Lemma console_clear_then_use_witness :
  let inpC := console (typed "c") (selector_at 5) in
  let inpR := console (typed "R") (selector_at 5) in
  let inpP := press WRITE (selector_at 5) (Some id_01) 1 in
  let st := power_on (eeprom_with 5 id5) in
  serial_text (snd (loop inpR (fst (loop inpC st))))
  = ("[ERROR] No code stored in slot "
     ++ printNumber_hex 8 (read_selector (selector inpC)) "" ++ " yet."
     ++ LF ++ CRLF ++ serial_text printWelcome)%string
  /\ snd (loop inpP (fst (loop inpC st)))
     = [DigitalWrite RED true; Delay 125; DigitalWrite RED false; Delay 125;
       DigitalWrite RED true; Delay 125; DigitalWrite RED false; Delay 125;
       DigitalWrite RED true; Delay 125; DigitalWrite RED false; Delay 125;
       DigitalWrite RED true; Delay 125; DigitalWrite RED false; Delay 125;
       DigitalWrite RED true; Delay 125; DigitalWrite RED false; Delay 125]
       ++ repeat (Delay 1) (held inpP)
  /\ bus_trace (snd (loop inpP (fst (loop inpC st)))) = [].
Proof.
  intros inpC inpR inpP st.
  apply (console_clear_then_use inpC inpR inpP st).
  - discriminate.
  - reflexivity.
  - discriminate.
  - reflexivity.
  - reflexivity.
  - repeat split.
  - reflexivity.
Defined.

(** ** Full or empty after a store *)

(** X18. A slot written from the console is never empty: once a write
    command has read six well-formed fields and a first byte for the name,
    whatever six bytes were typed, six zeros included, the family code 0x0C
    makes the slot test full. *)
Theorem console_write_never_empty
    (inp : inputs) (st : state) (hexstr : list (list Z)) (rest payload : list Z) :
  serial_rx inp <> [] ->
  read_command (serial_rx inp) (serial_choice st) = 1 ->
  read_hexstr 6 0 (serial_code inp) [] = Good hexstr rest ->
  read_result hexstr = Some payload ->
  rest ++ serial_name inp <> [] ->
  slot_is_full (eeprom (fst (loop inp st))) (read_selector (selector inp)) = true.
Proof.
  intros Hrx Hcmd Hform Hres Hname.
  destruct (read_result_bytes hexstr payload Hres) as [Hlen Hb].
  rewrite (read_hexstr_length _ _ _ _ _ _ Hform) in Hlen.
  cbn [List.length Nat.add] in Hlen.
  rewrite (loop_write_state _ _ _ _ _ Hrx Hcmd Hform Hres Hname).
  cbn [eeprom set_serial_choice set_eeprom].
  destruct (slot_is_full _ _) eqn:E; [reflexivity|].
  apply slot_is_full_bytes in E.
  rewrite (written_identifier _ _ _ _ Hlen Hb) in E. discriminate E.
Qed.

Lemma console_write_never_empty_witness :
  let inp := console_write (typed "W") (typed "0x00, 0x00, 0x00, 0x00, 0x00, 0x00")
                           (typed "spare") (selector_at 2) in
  slot_is_full (eeprom (fst (loop inp (power_on (fun _ => 0)))))
               (read_selector (selector inp)) = true.
Proof.
  intros inp.
  apply (console_write_never_empty inp (power_on (fun _ => 0))
           [typed "00"; typed "00"; typed "00"; typed "00"; typed "00"; typed "00"]
           [] [0; 0; 0; 0; 0; 0]).
  - discriminate.
  - reflexivity.
  - reflexivity.
  - reflexivity.
  - discriminate.
Defined.

(** X19. After a capture the slot tests empty exactly when the eight bytes
    the search returned are all zero: the search result is stored unchecked,
    and an all-zero one leaves the slot as good as erased. *)
Theorem capture_empty_iff (inp : inputs) (st : state) (X : list Z) :
  read_button_only inp ->
  search inp = Some X ->
  List.length X = 8%nat ->
  Forall is_byte X ->
  slot_is_full (eeprom (fst (loop inp st))) (read_selector (selector inp)) = false
  <-> X = repeat 0 8.
Proof.
  intros Hr Hs Hlen HX.
  rewrite (loop_capture_state _ _ _ Hr Hs), slot_is_full_bytes, store_addr_bytes.
  rewrite <- Hlen at 1. rewrite (map_nth_bytes X HX). reflexivity.
Qed.

Lemma capture_empty_iff_witness :
  slot_is_full (eeprom (fst (loop (press READ (selector_at 4) (Some (repeat 0 8)) 0)
                                  (power_on (eeprom_with 4 id5)))))
               (read_selector (selector (press READ (selector_at 4)
                                               (Some (repeat 0 8)) 0))) = false
  <-> repeat 0 8 = repeat 0 8.
Proof.
  apply (capture_empty_iff (press READ (selector_at 4) (Some (repeat 0 8)) 0)
                           (power_on (eeprom_with 4 id5)) (repeat 0 8)).
  - repeat split.
  - reflexivity.
  - reflexivity.
  - repeat constructor; unfold is_byte; lia.
Defined.
